(** * Polymarket hedge agent: the HTTP wrapper of [api.py] over the position
    ledger and the trading strategy.

    [api.py] is the only module of the repository at hand.  It imports
    [my_agent.position.Position], [my_agent.strategy.TradingStrategy] and
    [my_agent.utils.config.config]; those are modelled from the design
    document (see the modules [Ledger] and [Strategy] below) and the
    configuration constants are taken as a [TradingStrategy] value.

    Numbers are Python floats, that is IEEE 754 binary64: Rocq's primitive
    [float] with the kernel's operations.  A JSON integer such as [1000] is
    read as the float of the same value (exact below 2^53). *)

From Stdlib Require Import ZArith List String Bool Uint63 Floats Lia.
Import ListNotations.

Set Warnings "-inexact-float".

Local Open Scope float_scope.

(** ** Python values and exceptions *)

Module Py.

(** The exceptions that reach the handler of [execute_bet].  The first is
    Python's own; the other three are the error kinds of the design
    document. *)
Inductive exn : Set :=
| ZeroDivisionError
| InvalidInput
| InsufficientShares
| PreconditionFailed.

Inductive result (A : Type) : Type :=
| Ok (a : A)
| Raise (e : exn).

Arguments Ok {A} a.
Arguments Raise {A} e.

(** Python's [a / b] on floats: a zero divisor of either sign raises,
    whatever the dividend; otherwise the IEEE quotient. *)
Definition truediv (a b : float) : result float :=
  if b =? 0 then Raise ZeroDivisionError else Ok (a / b).

(** [d.get(key, default)] for a key that is absent ([None]) or present. *)
Definition get {A : Type} (field : option A) (default : A) : A :=
  match field with
  | Some v => v
  | None => default
  end.

(** A real quantity of the data model: a float that is neither NaN nor
    an infinity. *)
Definition real (x : float) : Prop := is_finite x = true.

End Py.

Import Py.

(** ** The process state *)

Inductive Side : Set := YES | NO.

Record Position : Set := mkPosition {
  yes_shares : float;
  no_shares : float;
  total_invested : float;
  total_withdrawn : float;
  avg_cost_yes : float;
  avg_cost_no : float;
  entry_prob : option float
}.

(** One invocation of a mutating engine operation, with the arguments it
    was given.  The last argument is the trade-execution flag
    ([execute_trade] / [execute_trades] in the keyword arguments of
    [api.py]). *)
Inductive EngineCall : Set :=
| CallOpenPosition (shares price : float) (side : Side)
    (entry : option float) (execute_trade : bool)
| CallBookProfitAndRebalance (yes_price no_price : float) (execute_trades : bool)
| CallCutLossAndExit (yes_price no_price : float) (execute_trades : bool).

Definition execution_flag (c : EngineCall) : bool :=
  match c with
  | CallOpenPosition _ _ _ _ b => b
  | CallBookProfitAndRebalance _ _ b => b
  | CallCutLossAndExit _ _ b => b
  end.

(** The module-level singleton of [api.py] after [initialize_agent] has
    run: the one [Position] object, which [strategy.position] aliases, and
    a ghost record of the engine operations invoked so far (oldest
    first). *)
Record World : Set := mkWorld {
  position_manager : Position;
  calls : list EngineCall
}.

(** ** State and exceptions

    A Python call either returns or raises; in both cases the mutations it
    made before stay. *)

Definition M (A : Type) : Type := World -> result A * World.

Definition ret {A : Type} (a : A) : M A := fun w => (Ok a, w).

Definition raise {A : Type} (e : exn) : M A := fun w => (Raise e, w).

Definition bind {A B : Type} (m : M A) (k : A -> M B) : M B :=
  fun w =>
    match m w with
    | (Ok a, w') => k a w'
    | (Raise e, w') => (Raise e, w')
    end.

Definition lift {A : Type} (r : result A) : M A := fun w => (r, w).

Definition read_position : M Position :=
  fun w => (Ok (position_manager w), w).

Definition write_position (p : Position) : M unit :=
  fun w => (Ok tt, {| position_manager := p; calls := calls w |}).

Definition log_call (c : EngineCall) : M unit :=
  fun w => (Ok tt, {| position_manager := position_manager w;
                      calls := calls w ++ [c] |}).

Declare Scope py_scope.
Delimit Scope py_scope with py.

Notation "x <- m ;; k" := (bind m (fun x => k))
  (at level 61, m at next level, right associativity) : py_scope.
Notation "m ;; k" := (bind m (fun _ => k))
  (at level 61, right associativity) : py_scope.

Local Open Scope py_scope.

(** ** The position ledger *)

Module Ledger.

(** Modelled from the spec: the class [my_agent.position.Position], of
    which [api.py] shows the field names, [has_position], [reset] and the
    keyword arguments of [open_position].  Every operation below follows
    the design document's section on the Position Ledger. *)
Definition empty : Position :=
  {| yes_shares := 0; no_shares := 0;
     total_invested := 0; total_withdrawn := 0;
     avg_cost_yes := 0; avg_cost_no := 0;
     entry_prob := None |}.

(** Modelled from the spec: the share count of one side. *)
Definition shares_of (side : Side) (p : Position) : float :=
  match side with
  | YES => yes_shares p
  | NO => no_shares p
  end.

(** Modelled from the spec: [hasPosition() <=> yesShares > 0 OR noShares > 0]. *)
Definition has_position (p : Position) : bool :=
  (0 <? yes_shares p) || (0 <? no_shares p).

(** Modelled from the spec: [isHedged <=> yesShares > 0 AND noShares > 0]. *)
Definition is_hedged (p : Position) : bool :=
  (0 <? yes_shares p) && (0 <? no_shares p).

(** Modelled from the spec: the weighted-average entry price per share of
    one side after a buy of [shares] at [price] on top of [held] shares
    bought at [avg] on average.  The document gives [openPosition] no
    error path beyond input validation, so this is the plain IEEE
    expression. *)
Definition weighted_avg (held avg shares price : float) : float :=
  (held * avg + shares * price) / (held + shares).

(** Modelled from the spec: the effect of a validated buy. *)
Definition buy (side : Side) (shares price : float) (entry : option float)
    (p : Position) : Position :=
  let entry' := match entry_prob p with
                | Some e => Some e
                | None => entry
                end in
  match side with
  | YES =>
      {| yes_shares := yes_shares p + shares;
         no_shares := no_shares p;
         total_invested := total_invested p + shares * price;
         total_withdrawn := total_withdrawn p;
         avg_cost_yes := weighted_avg (yes_shares p) (avg_cost_yes p) shares price;
         avg_cost_no := avg_cost_no p;
         entry_prob := entry' |}
  | NO =>
      {| yes_shares := yes_shares p;
         no_shares := no_shares p + shares;
         total_invested := total_invested p + shares * price;
         total_withdrawn := total_withdrawn p;
         avg_cost_yes := avg_cost_yes p;
         avg_cost_no := weighted_avg (no_shares p) (avg_cost_no p) shares price;
         entry_prob := entry' |}
  end.

(** Modelled from the spec: prices are per-share values in (0,1). *)
Definition valid_price (price : float) : bool :=
  (0 <? price) && (price <? 1).

(** Modelled from the spec: [openPosition(shares, price, side, entryProb)]
    requires [shares > 0] and [price] in (0,1). *)
Definition valid_entry (shares price : float) : bool :=
  (0 <? shares) && valid_price price.

(** Modelled from the spec: [openPosition] itself, with the keyword
    arguments of the call in [api.py]; an invalid input is rejected before
    any mutation, and [entryProb] is set if unset. *)
Definition open_position (shares price : float) (side : Side)
    (entry : option float) (execute_trade : bool) : M unit :=
  log_call (CallOpenPosition shares price side entry execute_trade) ;;
  if valid_entry shares price then
    p <- read_position ;;
    write_position (buy side shares price entry p)
  else raise InvalidInput.

(** Modelled from the spec: the effect of a sale; the average cost of the
    reduced side is left alone. *)
Definition sell (side : Side) (shares price : float) (p : Position) : Position :=
  match side with
  | YES =>
      {| yes_shares := yes_shares p - shares;
         no_shares := no_shares p;
         total_invested := total_invested p;
         total_withdrawn := total_withdrawn p + shares * price;
         avg_cost_yes := avg_cost_yes p;
         avg_cost_no := avg_cost_no p;
         entry_prob := entry_prob p |}
  | NO =>
      {| yes_shares := yes_shares p;
         no_shares := no_shares p - shares;
         total_invested := total_invested p;
         total_withdrawn := total_withdrawn p + shares * price;
         avg_cost_yes := avg_cost_yes p;
         avg_cost_no := avg_cost_no p;
         entry_prob := entry_prob p |}
  end.

(** Modelled from the spec: [recordSell(side, shares, price)] requires
    [shares <= current shares of that side] and fails with
    [InsufficientShares] otherwise; it returns the proceeds
    [shares * price]. *)
Definition record_sell (side : Side) (shares price : float) : M float :=
  p <- read_position ;;
  if shares <=? shares_of side p then
    write_position (sell side shares price p) ;;
    ret (shares * price)
  else raise InsufficientShares.

(** Modelled from the spec: [reset()] zeroes all fields and clears
    [entryProb]. *)
Definition reset : M unit := write_position empty.

(** One [openPosition] call of a sequence of entries. *)
Record EntryCall : Set := mkEntryCall {
  entry_shares : float;
  entry_price : float;
  entry_side : Side;
  entry_probability : option float;
  entry_execute : bool
}.

(** The calls of a sequence, one after the other; the first that raises
    ends the sequence. *)
Fixpoint open_positions (entries : list EntryCall) : M unit :=
  match entries with
  | [] => ret tt
  | e :: rest =>
      open_position (entry_shares e) (entry_price e) (entry_side e)
        (entry_probability e) (entry_execute e) ;;
      open_positions rest
  end.

(** The running float sum of [shares * price] over a sequence of entries,
    accumulated in call order on top of [invested]. *)
Definition invested_after (invested : float) (entries : list EntryCall) : float :=
  fold_left (fun acc e => acc + entry_shares e * entry_price e) entries invested.

End Ledger.

Import Ledger.

(** ** The strategy engine *)

Module Strategy.

(** Modelled from the spec: the class [my_agent.strategy.TradingStrategy].
    [api.py] constructs it from three configuration constants and uses
    [evaluate], [should_take_profit], [take_profit_threshold],
    [book_profit_and_rebalance] and [cut_loss_and_exit]; the bodies follow
    the design document's section on the Strategy Engine.  The engine's
    arithmetic is plain IEEE arithmetic, as the document states. *)
Record TradingStrategy : Set := mkStrategy {
  take_profit_threshold : float;
  stop_loss_threshold : float;
  hedge_sell_percent : float
}.

(** The actions that the docstring of [execute_bet] lists for an
    evaluation. *)
Inductive Action : Set := WAIT | HEDGE | STOP_LOSS | HOLD.

(** The dictionary that [evaluate] returns, with the keys that [api.py]
    reads. *)
Record Recommendation : Set := mkRecommendation {
  action : Action;
  reason : string;
  unrealized_pnl : option float
}.

(** Modelled from the spec: [shouldTakeProfit(currentProb)] is
    [currentProb >= takeProfitThreshold]. *)
Definition should_take_profit (s : TradingStrategy) (current_prob : float) : bool :=
  take_profit_threshold s <=? current_prob.

(** Modelled from the spec: mark-to-market of the remaining inventory plus
    cash withdrawn, minus cash invested. *)
Definition mark_to_market (yes_price no_price : float) (p : Position) : float :=
  yes_shares p * yes_price + no_shares p * no_price
  - total_invested p + total_withdrawn p.

(** Modelled from the spec: the decision order of [evaluate], first match
    wins.  The document leaves open when the optional PnL is reported and
    what the reason says; here the PnL is reported whenever a position is
    held. *)
Definition decide (s : TradingStrategy) (current_prob : float) (p : Position) : Action :=
  if negb (has_position p) then WAIT
  else if should_take_profit s current_prob && negb (is_hedged p) then HEDGE
  else if current_prob <=? stop_loss_threshold s then STOP_LOSS
  else HOLD.

(** Modelled from the spec: the reason names the comparison that produced
    the action; callers do not parse it. *)
Definition explain (a : Action) : string :=
  match a with
  | WAIT => "no position held"
  | HEDGE => "probability at or above the take-profit threshold"
  | STOP_LOSS => "probability at or below the stop-loss threshold"
  | HOLD => "probability between the thresholds"
  end.

(** Modelled from the spec: [evaluate(currentProb, yesPrice, noPrice)], a
    pure function of the ledger. *)
Definition evaluate (s : TradingStrategy) (current_prob yes_price no_price : float)
    (p : Position) : Recommendation :=
  let a := decide s current_prob p in
  {| action := a;
     reason := explain a;
     unrealized_pnl :=
       match a with
       | WAIT => None
       | _ => Some (mark_to_market yes_price no_price p)
       end |}.

(** The dictionary that [book_profit_and_rebalance] returns, with the keys
    that [api.py] reads. *)
Record HedgeResult : Set := mkHedgeResult {
  hedge_yes_sold : float;
  hedge_yes_price : float;
  hedge_no_bought : float;
  hedge_no_price : float;
  hedge_proceeds : float;
  hedge_locked_pnl : float
}.

(** Modelled from the spec: [bookProfitAndRebalance], with the parameters
    that the call in [api.py] passes: the two prices and the flag, and no
    probability.  It sells
    [yesShares * hedgeSellPercent] YES shares through [record_sell], spends
    the entire proceeds on NO shares through [open_position], and reports
    the realized gain on the shares sold, measured against the average
    cost read before the sale. *)
Definition book_profit_and_rebalance (s : TradingStrategy)
    (yes_price no_price : float) (execute_trades : bool) : M HedgeResult :=
  log_call (CallBookProfitAndRebalance yes_price no_price execute_trades) ;;
  p <- read_position ;;
  let yes_sold := yes_shares p * hedge_sell_percent s in
  let cost_basis := avg_cost_yes p in
  proceeds <- record_sell YES yes_sold yes_price ;;
  let no_bought := proceeds / no_price in
  open_position no_bought no_price NO None execute_trades ;;
  ret {| hedge_yes_sold := yes_sold;
         hedge_yes_price := yes_price;
         hedge_no_bought := no_bought;
         hedge_no_price := no_price;
         hedge_proceeds := proceeds;
         hedge_locked_pnl := proceeds - yes_sold * cost_basis |}.

(** The dictionary that [cut_loss_and_exit] returns, with the keys that
    [api.py] reads; per the design document [no_sold] is always there, so
    the default of [result.get('no_sold', 0)] is never used. *)
Record ExitResult : Set := mkExitResult {
  exit_yes_sold : float;
  exit_no_sold : float;
  exit_total_proceeds : float;
  exit_final_pnl : float
}.

(** Modelled from the spec: [cutLossAndExit] sells all remaining YES and
    NO shares at the given prices through [record_sell], adds up the two
    proceeds, and reads the final PnL off the ledger after the sales. *)
Definition cut_loss_and_exit (yes_price no_price : float) (execute_trades : bool)
    : M ExitResult :=
  log_call (CallCutLossAndExit yes_price no_price execute_trades) ;;
  p <- read_position ;;
  let yes_sold := yes_shares p in
  let no_sold := no_shares p in
  yes_proceeds <- record_sell YES yes_sold yes_price ;;
  no_proceeds <- record_sell NO no_sold no_price ;;
  p' <- read_position ;;
  ret {| exit_yes_sold := yes_sold;
         exit_no_sold := no_sold;
         exit_total_proceeds := yes_proceeds + no_proceeds;
         exit_final_pnl := total_withdrawn p' - total_invested p' |}.

End Strategy.

Import Strategy.

(** ** The HTTP endpoints of [api.py] *)

Module Api.

Local Open Scope string_scope.

(** The JSON body of a [POST /bet], read through [data.get]: a field is
    absent ([None]) or holds a value of the type the docstring of
    [execute_bet] gives it. *)
Record BetRequest : Set := mkBetRequest {
  req_action : option string;
  req_amount_usd : option float;
  req_current_prob : option float;
  req_yes_price : option float;
  req_no_price : option float
}.

(** The five locals that [execute_bet] binds before it looks at the
    action. *)
Record BetArgs : Set := mkBetArgs {
  arg_action : string;
  amount_usd : float;
  current_prob : float;
  yes_price : float;
  no_price : float
}.

Definition read_args (data : BetRequest) : BetArgs :=
  let action := get (req_action data) "evaluate" in
  let amount_usd := get (req_amount_usd data) 1000%float in
  let current_prob := get (req_current_prob data) 0.80%float in
  let yes_price := get (req_yes_price data) current_prob in
  let no_price := get (req_no_price data) (1 - current_prob)%float in
  {| arg_action := action;
     amount_usd := amount_usd;
     current_prob := current_prob;
     yes_price := yes_price;
     no_price := no_price |}.

(** What the [error] field of a failed response reports.  The texts are
    formatted strings in [api.py]; the values they are formatted from are
    kept instead. *)
Inductive ApiError : Set :=
| TakeProfitNotTriggered (prob threshold : float)
| UnknownAction (name : string)
| Exception (e : exn).

(** The JSON object of a response, one constructor per [jsonify] call of
    [execute_bet], fields in the order of the source. *)
Inductive Payload : Set :=
| Entry (shares price : float) (position_yes_shares position_invested : float)
| Evaluation (action : Action) (reason : string) (current_prob : float)
    (position_yes_shares position_no_shares : float) (position_is_hedged : bool)
    (unrealized_pnl_usd : option float)
| Hedge (locked_pnl_usd : float) (position_yes_shares position_no_shares : float)
    (trade_details : HedgeResult)
| StopLoss (final_pnl_usd : float) (yes_sold no_sold total_proceeds : float)
| Failure (error : ApiError).

Record Response : Set := mkResponse {
  status : Z;
  success : bool;
  payload : Payload
}.

Definition ok (body : Payload) : Response :=
  {| status := 200; success := true; payload := body |}.

Definition rejected (code : Z) (e : ApiError) : Response :=
  {| status := code; success := false; payload := Failure e |}.

(** The body of the [try] block of [execute_bet], after the five locals
    are bound. *)
Definition dispatch (strategy : TradingStrategy) (a : BetArgs) : M Response :=
  if arg_action a =? "enter" then
    shares <- lift (truediv (amount_usd a) (yes_price a)) ;;
    open_position shares (yes_price a) YES (Some (current_prob a)) false ;;
    p <- read_position ;;
    ret (ok (Entry shares (yes_price a) (yes_shares p) (total_invested p)))
  else if arg_action a =? "evaluate" then
    p <- read_position ;;
    let recommendation :=
      evaluate strategy (current_prob a) (yes_price a) (no_price a) p in
    ret (ok (Evaluation (action recommendation) (reason recommendation)
               (current_prob a) (yes_shares p) (no_shares p)
               ((0 <? yes_shares p)%float && (0 <? no_shares p)%float)
               (unrealized_pnl recommendation)))
  else if arg_action a =? "hedge" then
    if negb (should_take_profit strategy (current_prob a)) then
      ret (rejected 400 (TakeProfitNotTriggered (current_prob a)
                           (take_profit_threshold strategy)))
    else
      result <- book_profit_and_rebalance strategy (yes_price a) (no_price a) false ;;
      p <- read_position ;;
      ret (ok (Hedge (hedge_locked_pnl result) (yes_shares p) (no_shares p) result))
  else if arg_action a =? "exit" then
    result <- cut_loss_and_exit (yes_price a) (no_price a) false ;;
    ret (ok (StopLoss (exit_final_pnl result) (exit_yes_sold result)
               (exit_no_sold result) (exit_total_proceeds result)))
  else
    ret (rejected 400 (UnknownAction (arg_action a))).

(** [POST /bet]: the [try] block, and the [except Exception] handler that
    turns whatever was raised into a 500. *)
Definition execute_bet (strategy : TradingStrategy) (data : BetRequest)
    (w : World) : Response * World :=
  match dispatch strategy (read_args data) w with
  | (Ok response, w') => (response, w')
  | (Raise e, w') => (rejected 500 (Exception e), w')
  end.

(** [GET /position]. *)
Record PositionStatus : Set := mkPositionStatus {
  status_yes_shares : float;
  status_no_shares : float;
  status_total_invested : float;
  status_total_withdrawn : float;
  status_has_position : bool;
  status_is_hedged : bool;
  status_entry_prob : option float;
  status_avg_cost_yes : float;
  status_avg_cost_no : float
}.

Definition get_position (w : World) : PositionStatus :=
  let position_manager := position_manager w in
  {| status_yes_shares := yes_shares position_manager;
     status_no_shares := no_shares position_manager;
     status_total_invested := total_invested position_manager;
     status_total_withdrawn := total_withdrawn position_manager;
     status_has_position := has_position position_manager;
     status_is_hedged :=
       (0 <? yes_shares position_manager)%float
       && (0 <? no_shares position_manager)%float;
     status_entry_prob := entry_prob position_manager;
     status_avg_cost_yes := avg_cost_yes position_manager;
     status_avg_cost_no := avg_cost_no position_manager |}.

(** The request that states every one of the five values explicitly. *)
Definition stated (a : BetArgs) : BetRequest :=
  {| req_action := Some (arg_action a);
     req_amount_usd := Some (amount_usd a);
     req_current_prob := Some (current_prob a);
     req_yes_price := Some (yes_price a);
     req_no_price := Some (no_price a) |}.

(** [POST /reset]. *)
Definition reset_position (w : World) : World :=
  snd (reset w).

(** [initialize_agent] on a fresh process: the position that
    [Position(position_file=...)] loads, and no engine call made yet. *)
Definition initialize_agent (loaded : Position) : World :=
  {| position_manager := loaded; calls := [] |}.

End Api.

Import Api.

(** ** The scenario of the design document

    Take-profit at 0.85, stop-loss at 0.20, half of the YES side sold on a
    hedge; 1000 YES shares opened at 0.80 on an empty ledger. *)
Definition demo_strategy : TradingStrategy :=
  {| take_profit_threshold := 0.85;
     stop_loss_threshold := 0.20;
     hedge_sell_percent := 0.5 |}.

Definition demo_world : World :=
  initialize_agent (buy YES 1000 0.80 (Some 0.80) empty).

(** Two floats that are the same number: the same float, or two that
    Python's [==] holds equal (the two zeros). *)
Definition same_number (a b : float) : Prop :=
  a = b \/ (a =? b) = true.

(** The ledger after a sequence of bets, each served on the state the
    one before it left. *)
Definition after_bets (strategy : TradingStrategy) (requests : list BetRequest)
    (w : World) : World :=
  fold_left (fun w data => snd (execute_bet strategy data w)) requests w.

(** An [enter] whose share count overflows, 1e308 dollars at a YES price
    of 1e-5, and an [exit] at 0.5 / 0.5. *)
Definition overflowing_enter : BetRequest :=
  {| req_action := Some "enter"%string;
     req_amount_usd := Some 1e308;
     req_current_prob := Some 1e-5;
     req_yes_price := Some 1e-5;
     req_no_price := None |}.

Definition exit_at_half : BetRequest :=
  {| req_action := Some "exit"%string;
     req_amount_usd := None;
     req_current_prob := Some 0.5;
     req_yes_price := Some 0.5;
     req_no_price := Some 0.5 |}.

(** A request that gives the probability alone and leaves action, amount
    and both prices to their defaults. *)
Definition probability_only (prob : float) : BetRequest :=
  {| req_action := None;
     req_amount_usd := None;
     req_current_prob := Some prob;
     req_yes_price := None;
     req_no_price := None |}.

(** ** Dry runs

    A computation is a dry run when every engine call it adds to the
    record has its execution flag off. *)
Definition dry_run {A : Type} (m : M A) : Prop :=
  forall w : World,
    exists made : list EngineCall,
      calls (snd (m w)) = calls w ++ made /\
      Forall (fun c => execution_flag c = false) made.

(** ** The branches of [execute_bet]

    The [if] / [elif] chain of [execute_bet], one definition per branch,
    and the [except Exception] handler around them. *)

Module Branch.

Local Open Scope string_scope.

(** [if action == 'enter':] *)
Definition enter (a : BetArgs) : M Response :=
  shares <- lift (truediv (amount_usd a) (yes_price a)) ;;
  open_position shares (yes_price a) YES (Some (current_prob a)) false ;;
  p <- read_position ;;
  ret (ok (Entry shares (yes_price a) (yes_shares p) (total_invested p))).

(** [elif action == 'evaluate':] *)
Definition evaluation (strategy : TradingStrategy) (a : BetArgs) : M Response :=
  p <- read_position ;;
  let recommendation :=
    evaluate strategy (current_prob a) (yes_price a) (no_price a) p in
  ret (ok (Evaluation (action recommendation) (reason recommendation)
             (current_prob a) (yes_shares p) (no_shares p)
             ((0 <? yes_shares p)%float && (0 <? no_shares p)%float)
             (unrealized_pnl recommendation))).

(** [elif action == 'hedge':] *)
Definition hedge (strategy : TradingStrategy) (a : BetArgs) : M Response :=
  if negb (should_take_profit strategy (current_prob a)) then
    ret (rejected 400 (TakeProfitNotTriggered (current_prob a)
                         (take_profit_threshold strategy)))
  else
    result <- book_profit_and_rebalance strategy (yes_price a) (no_price a) false ;;
    p <- read_position ;;
    ret (ok (Hedge (hedge_locked_pnl result) (yes_shares p) (no_shares p) result)).

(** [elif action == 'exit':] *)
Definition stop_loss (a : BetArgs) : M Response :=
  result <- cut_loss_and_exit (yes_price a) (no_price a) false ;;
  ret (ok (StopLoss (exit_final_pnl result) (exit_yes_sold result)
             (exit_no_sold result) (exit_total_proceeds result))).

(** [else:] *)
Definition unknown (a : BetArgs) : M Response :=
  ret (rejected 400 (UnknownAction (arg_action a))).

(** The four action names that [execute_bet] knows. *)
Definition known (name : string) : bool :=
  (name =? "enter") || (name =? "evaluate") || (name =? "hedge") || (name =? "exit").

(** [except Exception as e:] around a branch. *)
Definition handled (branch : M Response) (w : World) : Response * World :=
  match branch w with
  | (Ok response, w') => (response, w')
  | (Raise e, w') => (rejected 500 (Exception e), w')
  end.

End Branch.

(** ** The process: module-level globals and the four routes *)

Module Process.

Local Open Scope string_scope.

(** What [initialize_agent] reads from outside the module when it builds
    the agent: the position that
    [Position(position_file="position_api.json", ...)] loads, and the three
    constants of [config]. *)
Record Environment : Set := mkEnvironment {
  position_file : Position;
  TAKE_PROFIT_PROBABILITY : float;
  STOP_LOSS_PROBABILITY : float;
  HEDGE_SELL_PERCENT : float
}.

(** The two module-level variables of [api.py], each [None] or an object,
    and the record of engine calls. *)
Record Globals : Set := mkGlobals {
  global_position_manager : option Position;
  global_strategy : option TradingStrategy;
  global_calls : list EngineCall
}.

(** The module as imported: [position_manager = None], [strategy = None]. *)
Definition fresh : Globals :=
  {| global_position_manager := None;
     global_strategy := None;
     global_calls := [] |}.

(** The strategy that [initialize_agent] constructs from [config]. *)
Definition configured (env : Environment) : TradingStrategy :=
  {| take_profit_threshold := TAKE_PROFIT_PROBABILITY env;
     stop_loss_threshold := STOP_LOSS_PROBABILITY env;
     hedge_sell_percent := HEDGE_SELL_PERCENT env |}.

(** [initialize_agent]: both globals are assigned when, and only when,
    [position_manager is None]. *)
Definition initialize_agent (env : Environment) (g : Globals) : Globals :=
  match global_position_manager g with
  | None =>
      {| global_position_manager := Some (position_file env);
         global_strategy := Some (configured env);
         global_calls := global_calls g |}
  | Some _ => g
  end.

(** The position object seen as the state of the engine, and the state
    of the engine put back behind the global (the object is mutated in
    place; the global keeps pointing to it). *)
Definition world (p : Position) (g : Globals) : World :=
  {| position_manager := p; calls := global_calls g |}.

Definition store (w : World) (g : Globals) : Globals :=
  {| global_position_manager := Some (position_manager w);
     global_strategy := global_strategy g;
     global_calls := calls w |}.

(** The body of [GET /health]. *)
Record Health : Set := mkHealth {
  health_status : string;
  health_service : string;
  health_version : string
}.

Inductive Request : Set :=
| GetHealth
| GetPosition
| PostBet (data : BetRequest)
| PostReset.

(** What a route answers.  [NoneTypeError] is the [AttributeError] that
    Python raises when a method or field of a global that is still [None]
    is used; [execute_bet] catches it and answers 500, the other routes
    let it through. *)
Inductive Reply : Set :=
| HealthReply (h : Health)
| PositionReply (s : PositionStatus)
| BetReply (r : Response)
| ResetReply (success : bool) (message : string)
| NoneTypeError.

(** [GET /health]: the only route that does not call [initialize_agent]. *)
Definition health_check (g : Globals) : Reply * Globals :=
  (HealthReply {| health_status := "healthy";
                  health_service := "polymarket-hedge-agent-api";
                  health_version := "1.0.0" |}, g).

(** [GET /position]. *)
Definition get_position (env : Environment) (g : Globals) : Reply * Globals :=
  let g := initialize_agent env g in
  match global_position_manager g with
  | Some p => (PositionReply (Api.get_position (world p g)), g)
  | None => (NoneTypeError, g)
  end.

(** [POST /bet].  With [strategy] still [None], the branches that call a
    method of it raise before they change anything; [enter] and the
    unknown action do not use it. *)
Definition execute_bet (env : Environment) (data : BetRequest) (g : Globals)
    : Reply * Globals :=
  let g := initialize_agent env g in
  let a := read_args data in
  match global_position_manager g, global_strategy g with
  | Some p, Some strategy =>
      let out := Api.execute_bet strategy data (world p g) in
      (BetReply (fst out), store (snd out) g)
  | Some p, None =>
      if arg_action a =? "enter" then
        let out := Branch.handled (Branch.enter a) (world p g) in
        (BetReply (fst out), store (snd out) g)
      else if Branch.known (arg_action a) then (NoneTypeError, g)
      else
        let out := Branch.handled (Branch.unknown a) (world p g) in
        (BetReply (fst out), store (snd out) g)
  | None, _ => (NoneTypeError, g)
  end.

(** [POST /reset]. *)
Definition reset_position (env : Environment) (g : Globals) : Reply * Globals :=
  let g := initialize_agent env g in
  match global_position_manager g with
  | Some p =>
      (ResetReply true "Position reset successfully",
       store (Api.reset_position (world p g)) g)
  | None => (NoneTypeError, g)
  end.

(** One request, served with the environment as it is at that moment. *)
Definition serve (env : Environment) (req : Request) (g : Globals)
    : Reply * Globals :=
  match req with
  | GetHealth => health_check g
  | GetPosition => get_position env g
  | PostBet data => execute_bet env data g
  | PostReset => reset_position env g
  end.

(** A sequence of requests, oldest first, with the replies in order. *)
Fixpoint run (traffic : list (Environment * Request)) (g : Globals)
    : list Reply * Globals :=
  match traffic with
  | [] => ([], g)
  | (env, req) :: rest =>
      let served := serve env req g in
      let later := run rest (snd served) in
      (fst served :: fst later, snd later)
  end.

(** Both globals unset, or both set. *)
Definition consistent (g : Globals) : Prop :=
  (global_position_manager g = None /\ global_strategy g = None) \/
  (exists p s, global_position_manager g = Some p /\ global_strategy g = Some s).

End Process.

(** The scenario as an environment: the position file holds the 1000 YES
    shares and [config] the scenario's thresholds; and a later environment
    in which both the file and the configuration have changed. *)
Definition demo_environment : Process.Environment :=
  {| Process.position_file := position_manager demo_world;
     Process.TAKE_PROFIT_PROBABILITY := 0.85;
     Process.STOP_LOSS_PROBABILITY := 0.20;
     Process.HEDGE_SELL_PERCENT := 0.5 |}.

Definition changed_environment : Process.Environment :=
  {| Process.position_file := empty;
     Process.TAKE_PROFIT_PROBABILITY := 0.99;
     Process.STOP_LOSS_PROBABILITY := 0.01;
     Process.HEDGE_SELL_PERCENT := 1 |}.

(** * Facts about binary64 comparisons and the arithmetic at zero

    Each is read off the specification of the primitive operation
    ([SFcompare], [SFadd], [SFsub], [SFmul]). *)

Module FloatFacts.

Lemma SFcompare_antisym (a b : spec_float) :
  SFcompare b a = option_map CompOpp (SFcompare a b).
Proof.
  destruct a as [sa|sa| |sa ma ea], b as [sb|sb| |sb mb eb]; simpl;
    try destruct sa; try destruct sb; simpl; try reflexivity;
    rewrite (Z.compare_antisym ea eb);
    destruct (ea ?= eb)%Z; simpl; try reflexivity;
    change (Pos.compare_cont Eq mb ma) with (Pos.compare mb ma);
    change (Pos.compare_cont Eq ma mb) with (Pos.compare ma mb);
    now rewrite (Pos.compare_antisym ma mb).
Qed.

Lemma SFcompare_refl (a : spec_float) :
  a <> S754_nan -> SFcompare a a = Some Eq.
Proof.
  destruct a as [s|s| |s m e]; intros H; try congruence;
    destruct s; simpl; try reflexivity;
    rewrite Z.compare_refl;
    change (Pos.compare_cont Eq m m) with (Pos.compare m m);
    now rewrite Pos.compare_refl.
Qed.

(** A real quantity is a zero or a finite number. *)
Lemma real_SF (x : float) :
  real x ->
  match Prim2SF x with
  | S754_zero _ | S754_finite _ _ _ => True
  | _ => False
  end.
Proof.
  unfold real, is_finite, is_nan, is_infinity.
  rewrite negb_true_iff, orb_false_iff, negb_false_iff.
  rewrite !eqb_spec, abs_spec. intros [Hn Hi].
  destruct (Prim2SF x) as [s|s| |s m e]; auto.
  - vm_compute in Hi. discriminate.
  - discriminate.
Qed.

Lemma ltb_leb_false (a b : float) : (a <? b) = true -> (b <=? a) = false.
Proof.
  rewrite ltb_spec, leb_spec. unfold SFltb, SFleb.
  rewrite (SFcompare_antisym (Prim2SF a) (Prim2SF b)).
  destruct (SFcompare (Prim2SF a) (Prim2SF b)) as [[]|]; simpl; congruence.
Qed.

Lemma leb_refl (x : float) : real x -> (x <=? x) = true.
Proof.
  intros H. apply real_SF in H. rewrite leb_spec. unfold SFleb.
  rewrite SFcompare_refl; [reflexivity|].
  destruct (Prim2SF x); congruence || contradiction.
Qed.

Lemma sub_diag (x : float) : real x -> x - x = 0.
Proof.
  intros H. apply real_SF in H. apply Prim2SF_inj.
  rewrite sub_spec. change (Prim2SF 0) with (S754_zero false).
  destruct (Prim2SF x) as [s|s| |s m e]; try contradiction.
  - destruct s; reflexivity.
  - unfold SF64sub, SFsub. rewrite Z.sub_diag. reflexivity.
Qed.

Lemma eqb_zero_not_pos (x : float) : (x =? 0) = true -> (0 <? x) = false.
Proof.
  rewrite eqb_spec, ltb_spec. unfold SFeqb, SFltb.
  rewrite (SFcompare_antisym (Prim2SF x) (Prim2SF 0)).
  destruct (SFcompare (Prim2SF x) (Prim2SF 0)) as [[]|]; simpl; congruence.
Qed.


(** A price in (0,1) is a positive finite number. *)
Lemma valid_price_SF (p : float) :
  valid_price p = true -> exists m e, Prim2SF p = S754_finite false m e.
Proof.
  unfold valid_price. rewrite andb_true_iff, !ltb_spec.
  change (Prim2SF 0) with (S754_zero false).
  intros [Hpos Hlt].
  destruct (Prim2SF p) as [s|s| |s m e]; try discriminate.
  - destruct s; [discriminate|]. vm_compute in Hlt. discriminate.
  - destruct s; [discriminate|]. now exists m, e.
Qed.

Lemma mul_zero_price (p : float) : valid_price p = true -> 0 * p = 0.
Proof.
  intros H. destruct (valid_price_SF p H) as (m & e & Hp).
  apply Prim2SF_inj. rewrite mul_spec, Hp. reflexivity.
Qed.

Lemma add_zero_r (x : float) : x <> neg_zero -> x + 0 = x.
Proof.
  intros H. apply Prim2SF_inj. rewrite add_spec.
  change (Prim2SF 0) with (S754_zero false).
  destruct (Prim2SF x) as [s|s| |s m e] eqn:Hx; try reflexivity.
  destruct s; [|reflexivity].
  exfalso. apply H. apply Prim2SF_inj. now rewrite Hx.
Qed.

(** The product of zero and a real number is a zero. *)
Lemma mul_zero_real (p : float) :
  real p -> exists s : bool, Prim2SF (0 * p) = S754_zero s.
Proof.
  intros H. apply real_SF in H. rewrite mul_spec.
  change (Prim2SF 0) with (S754_zero false).
  destruct (Prim2SF p) as [s|s| |s m e]; try contradiction;
    eexists; reflexivity.
Qed.

Lemma zero_eqb_zero (a b : float) (sa sb : bool) :
  Prim2SF a = S754_zero sa -> Prim2SF b = S754_zero sb -> (a =? b) = true.
Proof.
  intros Ha Hb. now rewrite eqb_spec, Ha, Hb.
Qed.

(** Adding a zero changes no number, the sign of a zero apart. *)
Lemma add_zero_cases (x z : float) (s : bool) :
  Prim2SF z = S754_zero s ->
  x + z = x \/ exists sx sx', Prim2SF x = S754_zero sx /\ Prim2SF (x + z) = S754_zero sx'.
Proof.
  intros Hz. rewrite add_spec, Hz.
  destruct (Prim2SF x) as [sx|sx| |sx m e] eqn:Hx.
  - right. exists sx. destruct sx, s; eexists; split; reflexivity.
  - left. apply Prim2SF_inj. rewrite add_spec, Hz, Hx. reflexivity.
  - left. apply Prim2SF_inj. rewrite add_spec, Hz, Hx. reflexivity.
  - left. apply Prim2SF_inj. rewrite add_spec, Hz, Hx. reflexivity.
Qed.

Lemma add_two_zeros (x z1 z2 : float) (s1 s2 : bool) :
  Prim2SF z1 = S754_zero s1 -> Prim2SF z2 = S754_zero s2 ->
  same_number (x + z1 + z2) x.
Proof.
  intros H1 H2.
  destruct (add_zero_cases x z1 s1 H1) as [Hsame|(sx & sx' & Hx & Hx')].
  - rewrite Hsame.
    destruct (add_zero_cases x z2 s2 H2) as [Hsame'|(sx & sx' & Hx & Hx')].
    + now left.
    + right. now apply (zero_eqb_zero _ _ sx' sx).
  - right.
    destruct (add_zero_cases (x + z1) z2 s2 H2) as [Hsame'|(sy & sy' & Hy & Hy')].
    + rewrite Hsame'. now apply (zero_eqb_zero _ _ sx' sx).
    + now apply (zero_eqb_zero _ _ sy' sx).
Qed.

Lemma sum_of_zeros (z1 z2 : float) (s1 s2 : bool) :
  Prim2SF z1 = S754_zero s1 -> Prim2SF z2 = S754_zero s2 ->
  (z1 + z2 =? 0) = true.
Proof.
  intros H1 H2.
  destruct (add_zero_cases z1 z2 s2 H2) as [->|(sx & sx' & _ & Hsum)].
  - now apply (zero_eqb_zero _ _ s1 false).
  - now apply (zero_eqb_zero _ _ sx' false).
Qed.

End FloatFacts.

Import FloatFacts.

(** * Rounding in binary64

    The operations of binary64 as the library specifies them, followed
    through their alignment, shift and round-to-nearest-even steps, up to
    the one fact the request defaults need: a number in [0,1] and its
    rounded complement to one add up to one exactly. *)

Module Binary64.

Local Open Scope Z_scope.

Local Abbreviation one_SF := (S754_finite false 4503599627370496 (-52)).

(** *** Powers of two *)

Lemma pow2_pos (k : Z) : 0 <= k -> 0 < 2 ^ k.
Proof. intros H. apply Z.pow_pos_nonneg; lia. Qed.

Lemma pow2_succ (k : Z) : 0 <= k -> 2 ^ (k + 1) = 2 * 2 ^ k.
Proof. intros H. rewrite Z.pow_add_r by lia. change (2 ^ 1) with 2. lia. Qed.

Lemma pow2_pred (k : Z) : 1 <= k -> 2 ^ k = 2 * 2 ^ (k - 1).
Proof.
  intros H. replace k with (k - 1 + 1) at 1 by lia. apply pow2_succ. lia.
Qed.

Lemma pow2_53 (k : Z) : 0 <= k -> 2 ^ (53 + k) = 9007199254740992 * 2 ^ k.
Proof. intros H. rewrite Z.pow_add_r by lia. reflexivity. Qed.

Lemma pow2_52 (k : Z) : 0 <= k -> 2 ^ (52 + k) = 4503599627370496 * 2 ^ k.
Proof. intros H. rewrite Z.pow_add_r by lia. reflexivity. Qed.

Lemma pow2_54 (k : Z) : 0 <= k -> 2 ^ (54 + k) = 18014398509481984 * 2 ^ k.
Proof. intros H. rewrite Z.pow_add_r by lia. reflexivity. Qed.

(** *** The number of binary digits *)

Lemma digits2_pos_bounds (m : positive) :
  2 ^ (Zpos (digits2_pos m) - 1) <= Zpos m < 2 ^ Zpos (digits2_pos m).
Proof.
  induction m as [m IH|m IH|]; cbn [digits2_pos].
  - rewrite Pos2Z.inj_succ.
    replace (Z.succ (Zpos (digits2_pos m)) - 1) with (Zpos (digits2_pos m)) by lia.
    rewrite <- Z.add_1_r, pow2_succ by lia.
    rewrite (pow2_pred (Zpos (digits2_pos m))) in IH |- * by lia.
    rewrite (Pos2Z.inj_xI m). lia.
  - rewrite Pos2Z.inj_succ.
    replace (Z.succ (Zpos (digits2_pos m)) - 1) with (Zpos (digits2_pos m)) by lia.
    rewrite <- Z.add_1_r, pow2_succ by lia.
    rewrite (pow2_pred (Zpos (digits2_pos m))) in IH |- * by lia.
    rewrite (Pos2Z.inj_xO m). lia.
  - split; [reflexivity|reflexivity].
Qed.

Lemma Zdigits2_bounds (M : Z) :
  0 < M -> 0 < Zdigits2 M /\ 2 ^ (Zdigits2 M - 1) <= M < 2 ^ Zdigits2 M.
Proof.
  intros H. destruct M as [|m|m]; try lia. cbn [Zdigits2].
  split; [lia | apply digits2_pos_bounds].
Qed.

Lemma Zdigits2_unique (M d : Z) :
  0 < d -> 2 ^ (d - 1) <= M < 2 ^ d -> Zdigits2 M = d.
Proof.
  intros Hd [Hlo Hhi].
  assert (HM : 0 < M) by (pose proof (pow2_pos (d - 1)); lia).
  destruct (Zdigits2_bounds M HM) as (Hd' & Hlo' & Hhi').
  destruct (Z.lt_trichotomy (Zdigits2 M) d) as [Hlt|[Heq|Hgt]]; [|exact Heq|].
  - pose proof (Z.pow_le_mono_r 2 (Zdigits2 M) (d - 1)). lia.
  - pose proof (Z.pow_le_mono_r 2 d (Zdigits2 M - 1)). lia.
Qed.

Lemma Zdigits2_53 (M k : Z) :
  0 <= k -> 4503599627370496 * 2 ^ k <= M < 9007199254740992 * 2 ^ k ->
  Zdigits2 M = 53 + k.
Proof.
  intros Hk H. apply Zdigits2_unique; [lia|].
  replace (53 + k - 1) with (52 + k) by lia.
  now rewrite pow2_52, pow2_53.
Qed.

Lemma Zdigits2_54 (M k : Z) :
  0 <= k -> 9007199254740992 * 2 ^ k <= M < 18014398509481984 * 2 ^ k ->
  Zdigits2 M = 54 + k.
Proof.
  intros Hk H. apply Zdigits2_unique; [lia|].
  replace (54 + k - 1) with (53 + k) by lia.
  now rewrite pow2_53, pow2_54.
Qed.

Lemma fexp_eq (x : Z) : fexp prec emax x = Z.max (x - 53) (-1074).
Proof. reflexivity. Qed.

(** *** Aligning a mantissa to a smaller exponent *)

Lemma iter_xO (m d : positive) : Zpos (Pos.iter xO m d) = Zpos m * 2 ^ Zpos d.
Proof.
  induction d as [|d IH] using Pos.peano_ind.
  - cbn [Pos.iter]. rewrite (Pos2Z.inj_xO m). change (2 ^ 1) with 2. lia.
  - rewrite Pos.iter_succ, (Pos2Z.inj_xO (Pos.iter xO m d)), IH, Pos2Z.inj_succ.
    rewrite <- Z.add_1_r, pow2_succ by lia. lia.
Qed.

Lemma shl_align_fst (m : positive) (e e' : Z) :
  e' <= e -> Zpos (fst (shl_align m e e')) = Zpos m * 2 ^ (e - e').
Proof.
  intros H. unfold shl_align.
  destruct (e' - e) as [|d|d] eqn:Hd; try lia.
  - replace (e - e') with 0 by lia. cbn [fst]. lia.
  - cbn [fst]. rewrite iter_xO. f_equal. f_equal. lia.
Qed.

Lemma shl_align_up (m : positive) (e e' : Z) :
  e <= e' -> shl_align m e e' = (m, e).
Proof.
  intros H. unfold shl_align. destruct (e' - e) eqn:Hd; try reflexivity. lia.
Qed.

Lemma shl_align_down (m : positive) (e e' : Z) :
  e' <= e ->
  exists mz : positive,
    shl_align m e e' = (mz, e') /\ Zpos mz = Zpos m * 2 ^ (e - e').
Proof.
  intros H. unfold shl_align.
  destruct (e' - e) as [|d|d] eqn:Hd; try lia.
  - exists m. replace (e - e') with 0 by lia. split; [f_equal; lia | lia].
  - eexists. split; [reflexivity|]. rewrite iter_xO. f_equal. f_equal. lia.
Qed.

(** *** Shifting a mantissa to the right *)

Lemma iter_pos_nat {A : Type} (f : A -> A) (n : positive) (x : A) :
  iter_pos f n x = Nat.iter (Pos.to_nat n) f x.
Proof.
  revert x. induction n as [n IH|n IH|]; intros x; cbn [iter_pos].
  - rewrite !IH, Pos2Nat.inj_xI.
    replace (S (2 * Pos.to_nat n)) with (S (Pos.to_nat n + Pos.to_nat n)) by lia.
    now rewrite Nat.iter_succ_r, Nat.iter_add.
  - rewrite !IH, Pos2Nat.inj_xO.
    replace (2 * Pos.to_nat n)%nat with (Pos.to_nat n + Pos.to_nat n)%nat by lia.
    now rewrite Nat.iter_add.
  - reflexivity.
Qed.

Lemma shr_1_nonneg (m : Z) (r s : bool) :
  0 <= m ->
  shr_1 (Build_shr_record m r s) = Build_shr_record (m / 2) (Z.odd m) (r || s).
Proof.
  intros Hm. destruct m as [|p|p]; [reflexivity| |lia].
  destruct p as [p|p|]; cbn [shr_1 Z.odd].
  - replace (Z.pos p~1 / 2) with (Z.pos p); [reflexivity|].
    apply (Z.div_unique _ _ _ 1); lia.
  - replace (Z.pos p~0 / 2) with (Z.pos p); [reflexivity|].
    apply (Z.div_unique _ _ _ 0); lia.
  - reflexivity.
Qed.

(** After n + 1 steps the record holds the high part, the next bit and whether
    anything lies below it. *)
Lemma shr_steps (M : Z) (n : nat) :
  0 <= M ->
  exists hi b lo : Z,
    M = hi * 2 ^ Z.of_nat (S n) + b * 2 ^ Z.of_nat n + lo /\
    0 <= hi /\ (b = 0 \/ b = 1) /\ 0 <= lo < 2 ^ Z.of_nat n /\
    Nat.iter (S n) shr_1 (Build_shr_record M false false)
    = Build_shr_record hi (b =? 1) (negb (lo =? 0)).
Proof.
  intros HM. induction n as [|n IH].
  - exists (M / 2), (M mod 2), 0. cbn [Nat.iter].
    rewrite (shr_1_nonneg M _ _ HM).
    pose proof (Z.div_mod M 2 ltac:(lia)) as Hdm.
    pose proof (Z.mod_pos_bound M 2 ltac:(lia)) as Hb.
    change (2 ^ Z.of_nat 1) with 2. change (2 ^ Z.of_nat 0) with 1.
    split; [lia|]. split; [apply Z.div_pos; lia|]. split; [lia|]. split; [lia|].
    f_equal. rewrite Zodd_mod. reflexivity.
  - destruct IH as (hi & b & lo & HMeq & Hhi & Hb & Hlo & Hrec).
    exists (hi / 2), (hi mod 2), (b * 2 ^ Z.of_nat n + lo).
    change (Nat.iter (S (S n)) shr_1 ?x) with (shr_1 (Nat.iter (S n) shr_1 x)).
    rewrite Hrec, (shr_1_nonneg hi _ _ Hhi).
    pose proof (Z.div_mod hi 2 ltac:(lia)) as Hdm.
    pose proof (Z.mod_pos_bound hi 2 ltac:(lia)) as Hb'.
    assert (HP : 0 < 2 ^ Z.of_nat n) by (apply Z.pow_pos_nonneg; lia).
    assert (HS : 2 ^ Z.of_nat (S n) = 2 * 2 ^ Z.of_nat n)
      by (rewrite Nat2Z.inj_succ; apply Z.pow_succ_r; lia).
    assert (HSS : 2 ^ Z.of_nat (S (S n)) = 2 * 2 ^ Z.of_nat (S n))
      by (rewrite (Nat2Z.inj_succ (S n)); apply Z.pow_succ_r; lia).
    rewrite HSS, HS in *. set (P := 2 ^ Z.of_nat n) in *.
    split; [nia|]. split; [apply Z.div_pos; lia|]. split; [lia|].
    split; [destruct Hb; subst b; lia|].
    f_equal.
    + rewrite Zodd_mod. reflexivity.
    + destruct Hb; subst b; cbn [Z.eqb orb].
      * now rewrite Z.mul_0_l, Z.add_0_l.
      * destruct (Z.eqb_spec (1 * P + lo) 0); [lia | reflexivity].
Qed.

Lemma shr_exact (M e k : Z) :
  0 <= M -> 1 <= k ->
  exists hi b lo : Z,
    M = hi * (2 * 2 ^ (k - 1)) + b * 2 ^ (k - 1) + lo /\
    0 <= hi /\ (b = 0 \/ b = 1) /\ 0 <= lo < 2 ^ (k - 1) /\
    shr (Build_shr_record M false false) e k
    = (Build_shr_record hi (b =? 1) (negb (lo =? 0)), e + k).
Proof.
  intros HM Hk. destruct k as [|p|p]; try lia.
  destruct (shr_steps M (Nat.pred (Pos.to_nat p)) HM)
    as (hi & b & lo & HMeq & Hhi & Hb & Hlo & Hrec).
  assert (Hp : S (Nat.pred (Pos.to_nat p)) = Pos.to_nat p) by lia.
  rewrite Hp in *.
  assert (Hz : Z.of_nat (Nat.pred (Pos.to_nat p)) = Zpos p - 1) by lia.
  rewrite Hz in *. rewrite positive_nat_Z in HMeq.
  rewrite (pow2_pred (Zpos p)) in HMeq by lia.
  exists hi, b, lo. repeat (split; [assumption|]).
  cbn [shr]. now rewrite iter_pos_nat, Hrec.
Qed.

(** The split of a number into high part, next bit and rest is unique. *)
Lemma split_unique (P hi b lo hi' r : Z) :
  0 < P -> (b = 0 \/ b = 1) -> 0 <= lo < P -> 0 <= r < 2 * P ->
  hi * (2 * P) + b * P + lo = hi' * (2 * P) + r ->
  hi = hi' /\ b * P + lo = r.
Proof.
  intros HP Hb Hlo Hr H.
  assert (hi = hi') by (destruct Hb; subst b; nia).
  subst hi'. lia.
Qed.


(** *** Rounding a mantissa to 53 bits *)

Lemma binary_round_aux_exact (M e : Z) :
  0 < M -> fexp prec emax (Zdigits2 M + e) = e -> e <= 971 ->
  binary_round_aux prec emax false M e loc_Exact
  = S754_finite false (Z.to_pos M) e.
Proof.
  intros HM Hf He. unfold binary_round_aux, shr_fexp.
  rewrite Hf, Z.sub_diag.
  cbn [shr shr_record_of_loc shr_m loc_of_shr_record round_nearest_even].
  rewrite Hf, Z.sub_diag. cbn [shr shr_record_of_loc shr_m].
  destruct M as [|m|m]; try lia. cbn [Z.to_pos].
  replace (e <=? emax - prec) with true; [reflexivity|].
  symmetry. apply Z.leb_le. change (emax - prec) with 971. lia.
Qed.

Lemma shr_fexp_53 (q : Z) :
  4503599627370496 <= q < 9007199254740992 ->
  shr_fexp prec emax q (-53) loc_Exact = (Build_shr_record q false false, -53).
Proof.
  intros H. unfold shr_fexp.
  rewrite (Zdigits2_53 q 0); [reflexivity | lia | change (2 ^ 0) with 1; lia].
Qed.

(** Just above a power of two the number rounds down to it. *)
Lemma binary_round_aux_up (X e n : Z) :
  1 <= n -> e + n = -52 ->
  4503599627370496 * (2 * 2 ^ (n - 1)) <= X
    < 4503599627370496 * (2 * 2 ^ (n - 1)) + 2 ^ (n - 1) ->
  binary_round_aux prec emax false X e loc_Exact = one_SF.
Proof.
  intros Hn He HX.
  pose proof (pow2_pos (n - 1) ltac:(lia)) as HP.
  assert (Hd : Zdigits2 X = 53 + n).
  { apply Zdigits2_53; [lia|]. rewrite (pow2_pred n) by lia. lia. }
  unfold binary_round_aux, shr_fexp. rewrite Hd, fexp_eq.
  replace (Z.max (53 + n + e - 53) (-1074) - e) with n by lia.
  cbn [shr_record_of_loc].
  destruct (shr_exact X e n ltac:(lia) Hn)
    as (hi & b & lo & HXeq & Hhi & Hb & Hlo & Hshr).
  rewrite Hshr.
  destruct (split_unique (2 ^ (n - 1)) hi b lo 4503599627370496
              (X - 4503599627370496 * (2 * 2 ^ (n - 1))) HP Hb Hlo
              ltac:(lia) ltac:(lia)) as [-> Hr].
  assert (b = 0) by (destruct Hb; [assumption | subst b; lia]). subst b.
  rewrite He. destruct (negb (lo =? 0)); reflexivity.
Qed.

(** Just below a power of two the number rounds up to it, the tie included:
    the mantissa below is odd. *)
Lemma binary_round_aux_down (X e k : Z) :
  1 <= k -> e + k = -53 ->
  9007199254740991 * (2 * 2 ^ (k - 1)) + 2 ^ (k - 1) <= X
    < 9007199254740992 * (2 * 2 ^ (k - 1)) ->
  binary_round_aux prec emax false X e loc_Exact = one_SF.
Proof.
  intros Hk He HX.
  pose proof (pow2_pos (k - 1) ltac:(lia)) as HP.
  assert (Hd : Zdigits2 X = 53 + k).
  { apply Zdigits2_53; [lia|]. rewrite (pow2_pred k) by lia. lia. }
  unfold binary_round_aux, shr_fexp. rewrite Hd, fexp_eq.
  replace (Z.max (53 + k + e - 53) (-1074) - e) with k by lia.
  cbn [shr_record_of_loc].
  destruct (shr_exact X e k ltac:(lia) Hk)
    as (hi & b & lo & HXeq & Hhi & Hb & Hlo & Hshr).
  rewrite Hshr.
  destruct (split_unique (2 ^ (k - 1)) hi b lo 9007199254740991
              (X - 9007199254740991 * (2 * 2 ^ (k - 1))) HP Hb Hlo
              ltac:(lia) ltac:(lia)) as [-> Hr].
  assert (b = 1) by (destruct Hb; [subst b; lia | assumption]). subst b.
  rewrite He. destruct (negb (lo =? 0)); reflexivity.
Qed.

(** A number of 53 + k bits rounds to a 53-bit mantissa at most half a unit
    away, or to the next power of two. *)
Lemma binary_round_aux_near (D e k : Z) :
  1 <= k -> e + k = -53 ->
  4503599627370496 * (2 * 2 ^ (k - 1)) <= D
    < 9007199254740992 * (2 * 2 ^ (k - 1)) ->
  exists q : Z,
    4503599627370496 <= q <= 9007199254740992 /\
    - 2 ^ (k - 1) <= q * (2 * 2 ^ (k - 1)) - D <= 2 ^ (k - 1) /\
    binary_round_aux prec emax false D e loc_Exact
    = if q =? 9007199254740992 then one_SF
      else S754_finite false (Z.to_pos q) (-53).
Proof.
  intros Hk He HD.
  pose proof (pow2_pos (k - 1) ltac:(lia)) as HP.
  assert (Hd : Zdigits2 D = 53 + k).
  { apply Zdigits2_53; [lia|]. rewrite (pow2_pred k) by lia. lia. }
  unfold binary_round_aux, shr_fexp at 1. rewrite Hd, fexp_eq.
  replace (Z.max (53 + k + e - 53) (-1074) - e) with k by lia.
  cbn [shr_record_of_loc].
  destruct (shr_exact D e k ltac:(lia) Hk)
    as (hi & b & lo & HDeq & Hhi & Hb & Hlo & Hshr).
  rewrite Hshr, He. set (P := 2 ^ (k - 1)) in *.
  assert (Hhi' : 4503599627370496 <= hi < 9007199254740992)
    by (destruct Hb; subst b; nia).
  set (q := round_nearest_even hi
              (loc_of_shr_record (Build_shr_record hi (b =? 1) (negb (lo =? 0))))).
  assert (Hq : (q = hi /\ - P <= hi * (2 * P) - D <= 0) \/
               (q = hi + 1 /\ 0 <= (hi + 1) * (2 * P) - D <= P)).
  { subst q. destruct Hb; subst b; cbn [Z.eqb Pos.eqb];
      destruct (Z.eqb_spec lo 0);
      cbn [negb loc_of_shr_record round_nearest_even].
    - left. split; [reflexivity | lia].
    - left. split; [reflexivity | lia].
    - destruct (Z.even hi); [left | right]; split; try reflexivity; lia.
    - right. split; [reflexivity | lia]. }
  exists q. split; [lia|]. split; [destruct Hq as [[-> ?]|[-> ?]]; lia|].
  cbn [shr_m]. fold q.
  destruct (Z.eqb_spec q 9007199254740992) as [->|Hne]; [reflexivity|].
  rewrite shr_fexp_53 by lia. cbn [shr_m].
  destruct q as [|pq|pq]; try lia. reflexivity.
Qed.


(** *** Normalising a sum or a difference *)

Lemma binary_normalize_noshift (M e : Z) :
  0 < M -> e <= fexp prec emax (Zdigits2 M + e) ->
  binary_normalize prec emax M e false
  = binary_round_aux prec emax false M e loc_Exact.
Proof.
  intros HM He. destruct M as [|m|m]; try lia.
  unfold binary_normalize, binary_round. cbn [Zdigits2] in He.
  now rewrite shl_align_up.
Qed.

Lemma binary_normalize_shift (M e t : Z) :
  0 < M -> fexp prec emax (Zdigits2 M + e) = t -> t <= e ->
  binary_normalize prec emax M e false
  = binary_round_aux prec emax false (M * 2 ^ (e - t)) t loc_Exact.
Proof.
  intros HM Ht He. destruct M as [|m|m]; try lia.
  unfold binary_normalize, binary_round. cbn [Zdigits2] in Ht. rewrite Ht.
  destruct (shl_align_down m e t He) as (mz & -> & <-). reflexivity.
Qed.

(** Whatever lies within half a unit below and a whole unit above a power of
    two normalises to that power: here to one. *)
Lemma normalize_near_one (X e k : Z) :
  0 <= k -> e + k = -53 ->
  9007199254740992 * 2 ^ k - 2 ^ (k - 1) <= X
    < 9007199254740992 * 2 ^ k + 2 ^ k ->
  binary_normalize prec emax X e false = one_SF.
Proof.
  intros Hk He HX.
  pose proof (pow2_pos k Hk) as HP.
  assert (HP' : 0 <= 2 ^ (k - 1)) by (apply Z.pow_nonneg; lia).
  destruct (Z.le_gt_cases (9007199254740992 * 2 ^ k) X) as [Hup|Hdown].
  - assert (Hd : Zdigits2 X = 54 + k) by (apply Zdigits2_54; lia).
    rewrite binary_normalize_noshift; [|lia|rewrite Hd, fexp_eq; lia].
    apply (binary_round_aux_up X e (k + 1)); [lia|lia|].
    replace (k + 1 - 1) with k by lia. lia.
  - assert (Hk1 : 1 <= k).
    { destruct (Z.eq_dec k 0) as [->|]; [|lia].
      change (2 ^ (0 - 1)) with 0 in HX. lia. }
    rewrite (pow2_pred k) in HX, HP, Hdown by lia.
    assert (Hd : Zdigits2 X = 53 + k).
    { apply Zdigits2_53; [lia|]. rewrite (pow2_pred k) by lia. lia. }
    rewrite binary_normalize_noshift; [|lia|rewrite Hd, fexp_eq; lia].
    apply (binary_round_aux_down X e k); lia.
Qed.

Lemma SFadd_finite (m1 : positive) (e1 : Z) (m2 : positive) (e2 : Z) :
  SF64add (S754_finite false m1 e1) (S754_finite false m2 e2)
  = binary_normalize prec emax
      (Zpos m1 * 2 ^ (e1 - Z.min e1 e2) + Zpos m2 * 2 ^ (e2 - Z.min e1 e2))
      (Z.min e1 e2) false.
Proof.
  unfold SF64add, SFadd. cbn [cond_Zopp].
  rewrite !shl_align_fst by lia. reflexivity.
Qed.

Lemma SFsub_finite (m1 : positive) (e1 : Z) (m2 : positive) (e2 : Z) :
  SF64sub (S754_finite false m1 e1) (S754_finite false m2 e2)
  = binary_normalize prec emax
      (Zpos m1 * 2 ^ (e1 - Z.min e1 e2) - Zpos m2 * 2 ^ (e2 - Z.min e1 e2))
      (Z.min e1 e2) false.
Proof.
  unfold SF64sub, SFsub. cbn [cond_Zopp].
  rewrite !shl_align_fst by lia. reflexivity.
Qed.


(** *** A number in [0,1] and its complement *)

Lemma complement_small (m : positive) (e : Z) :
  Zpos m < 9007199254740992 -> e <= -54 ->
  SF64add (S754_finite false m e) (SF64sub one_SF (S754_finite false m e))
  = one_SF.
Proof.
  intros Hm He.
  set (k := -53 - e).
  assert (Hk : 1 <= k) by lia.
  pose proof (pow2_pos (k - 1) ltac:(lia)) as HP.
  rewrite SFsub_finite, Z.min_r by lia.
  replace (e - e) with 0 by lia. change (2 ^ 0) with 1.
  replace (-52 - e) with (k + 1) by lia.
  rewrite pow2_succ, (pow2_pred k) by lia.
  set (P := 2 ^ (k - 1)) in *.
  set (D := 4503599627370496 * (2 * (2 * P)) - Z.pos m * 1).
  assert (HD : 4503599627370496 * (2 * P) <= D < 9007199254740992 * (2 * P))
    by (subst D; lia).
  rewrite binary_normalize_noshift; [|lia|].
  2:{ rewrite (Zdigits2_53 D k), fexp_eq; [lia|lia|].
      rewrite (pow2_pred k) by lia. exact HD. }
  destruct (binary_round_aux_near D e k Hk ltac:(lia) HD) as (q & Hq & Hdiff & ->).
  fold P in Hdiff.
  destruct (Z.eqb_spec q 9007199254740992) as [Hq'|Hq'].
  - rewrite SFadd_finite, Z.min_l by lia.
    replace (e - e) with 0 by lia. change (2 ^ 0) with 1.
    replace (-52 - e) with (k + 1) by lia.
    rewrite pow2_succ by lia.
    apply (normalize_near_one _ e k); [lia|lia|].
    rewrite (pow2_pred k) by lia. fold P. lia.
  - rewrite SFadd_finite, Z.min_l by lia.
    replace (e - e) with 0 by lia. change (2 ^ 0) with 1.
    replace (-53 - e) with k by lia.
    rewrite Z2Pos.id by lia.
    apply (normalize_near_one _ e k); [lia|lia|].
    rewrite (pow2_pred k) by lia. fold P. lia.
Qed.

Lemma complement_large (m : positive) :
  Zpos m < 9007199254740992 ->
  SF64add (S754_finite false m (-53))
    (SF64sub one_SF (S754_finite false m (-53)))
  = one_SF.
Proof.
  intros Hm.
  rewrite SFsub_finite, Z.min_r by lia.
  change (2 ^ (-52 - -53)) with 2. change (2 ^ (-53 - -53)) with 1.
  set (D := 4503599627370496 * 2 - Z.pos m * 1).
  assert (HD : 0 < D < 9007199254740992) by (subst D; lia).
  destruct (Zdigits2_bounds D ltac:(lia)) as (Hd & Hlo & Hhi).
  set (d := Zdigits2 D) in *.
  assert (Hd53 : d <= 53).
  { destruct (Z.le_gt_cases d 53) as [|Hgt]; [assumption|].
    pose proof (Z.pow_le_mono_r 2 53 (d - 1) ltac:(lia) ltac:(lia)) as Hmono.
    change (2 ^ 53) with 9007199254740992 in Hmono. lia. }
  set (j := 53 - d).
  pose proof (pow2_pos j ltac:(lia)) as Hj.
  assert (Hlo' : 4503599627370496 <= D * 2 ^ j).
  { replace 4503599627370496 with (2 ^ (d - 1) * 2 ^ j).
    - apply Z.mul_le_mono_nonneg_r; lia.
    - rewrite <- Z.pow_add_r by lia. replace (d - 1 + j) with 52 by lia.
      reflexivity. }
  assert (Hhi' : D * 2 ^ j < 9007199254740992).
  { replace 9007199254740992 with (2 ^ d * 2 ^ j).
    - apply Z.mul_lt_mono_pos_r; lia.
    - rewrite <- Z.pow_add_r by lia. replace (d + j) with 53 by lia.
      reflexivity. }
  rewrite (binary_normalize_shift D (-53) (d - 106));
    [|lia|fold d; rewrite fexp_eq; lia|lia].
  replace (-53 - (d - 106)) with j by lia.
  rewrite binary_round_aux_exact; [|lia| |lia].
  2:{ rewrite (Zdigits2_53 (D * 2 ^ j) 0), fexp_eq;
        [lia | lia | change (2 ^ 0) with 1; lia]. }
  rewrite SFadd_finite, Z.min_r by lia.
  replace (-53 - (d - 106)) with j by lia.
  replace (d - 106 - (d - 106)) with 0 by lia. change (2 ^ 0) with 1.
  rewrite Z2Pos.id by lia.
  apply (normalize_near_one _ (d - 106) j); [lia|lia|].
  assert (0 <= 2 ^ (j - 1)) by (apply Z.pow_nonneg; lia).
  subst D. lia.
Qed.

(** In binary64, a number in [0,1] and its rounded complement to one add up
    to one exactly. *)
Lemma complement_sums_to_one_SF (m : positive) (e : Z) :
  bounded prec emax m e = true ->
  SFleb (S754_finite false m e) one_SF = true ->
  SF64add (S754_finite false m e) (SF64sub one_SF (S754_finite false m e))
  = one_SF.
Proof.
  unfold bounded, canonical_mantissa.
  rewrite andb_true_iff, Z.eqb_eq, Z.leb_le, fexp_eq.
  intros [Hcan _] Hle.
  pose proof (digits2_pos_bounds m) as [Hlo Hhi].
  set (d := Zpos (digits2_pos m)) in *.
  assert (Hm : Zpos m < 9007199254740992).
  { pose proof (Z.pow_le_mono_r 2 d 53 ltac:(lia) ltac:(lia)) as Hmono.
    change (2 ^ 53) with 9007199254740992 in Hmono. lia. }
  unfold SFleb, SFcompare in Hle.
  destruct (Z.compare_spec e (-52)) as [He|He|He]; [| |discriminate].
  - assert (Hd : d = 53) by lia.
    rewrite Hd in Hlo. change (2 ^ (53 - 1)) with 4503599627370496 in Hlo.
    destruct (Pos.compare_cont Eq m 4503599627370496) eqn:Hc;
      [| |discriminate].
    + apply (Pos.compare_eq m 4503599627370496) in Hc. subst m e. reflexivity.
    + assert (Hlt : Z.pos m < 4503599627370496) by exact Hc.
      exfalso. clear - Hlt Hlo. lia.
  - destruct (Z.eq_dec e (-53)) as [->|Hne].
    + now apply complement_large.
    + apply complement_small; [assumption | lia].
Qed.

Lemma complement_sums_to_one (p : float) :
  (0 <=? p)%float = true -> (p <=? 1)%float = true ->
  (p + (1 - p))%float = 1%float.
Proof.
  rewrite !leb_spec.
  change (Prim2SF 0) with (S754_zero false). change (Prim2SF 1) with one_SF.
  intros H0 H1. apply Prim2SF_inj. rewrite add_spec, sub_spec.
  change (Prim2SF 1) with one_SF.
  pose proof (Prim2SF_valid p) as Hv.
  destruct (Prim2SF p) as [s|s| |s m e].
  - destruct s; reflexivity.
  - destruct s; discriminate.
  - discriminate.
  - destruct s; [discriminate|]. now apply complement_sums_to_one_SF.
Qed.



End Binary64.


(** * Steps of the ledger that succeed *)

Lemma open_position_valid (shares price : float) (side : Side)
    (entry : option float) (flag : bool) (w : World) :
  valid_entry shares price = true ->
  open_position shares price side entry flag w
  = (Ok tt,
     {| position_manager := buy side shares price entry (position_manager w);
        calls := calls w ++ [CallOpenPosition shares price side entry flag] |}).
Proof.
  intros H. unfold open_position, bind, log_call. now rewrite H.
Qed.

Lemma open_position_invalid (shares price : float) (side : Side)
    (entry : option float) (flag : bool) (w : World) :
  valid_entry shares price = false ->
  open_position shares price side entry flag w
  = (Raise InvalidInput,
     {| position_manager := position_manager w;
        calls := calls w ++ [CallOpenPosition shares price side entry flag] |}).
Proof.
  intros H. unfold open_position, bind, log_call. now rewrite H.
Qed.

Lemma record_sell_enough (side : Side) (shares price : float) (w : World) :
  (shares <=? shares_of side (position_manager w)) = true ->
  record_sell side shares price w
  = (Ok (shares * price),
     {| position_manager := sell side shares price (position_manager w);
        calls := calls w |}).
Proof.
  intros H. unfold record_sell, bind, read_position. now rewrite H.
Qed.

Lemma total_invested_buy (side : Side) (shares price : float)
    (entry : option float) (p : Position) :
  total_invested (buy side shares price entry p)
  = total_invested p + shares * price.
Proof. now destruct side. Qed.

(** * The ledger *)

(** C7: [recordSell(side, shares, price)] with more shares than the side
    holds raises [InsufficientShares] and leaves the whole state as it was:
    share counts, totals, average costs and entry probability. *)
Theorem record_sell_insufficient_shares (side : Side) (shares price : float)
    (w : World) :
  (shares_of side (position_manager w) <? shares) = true ->
  record_sell side shares price w = (Raise InsufficientShares, w).
Proof.
  intros H. unfold record_sell, bind, read_position.
  now rewrite (ltb_leb_false _ _ H).
Qed.

(** 1000 YES shares held, 1001 offered for sale. *)
Lemma record_sell_insufficient_shares_witness :
  record_sell YES 1001 0.86 demo_world = (Raise InsufficientShares, demo_world).
Proof.
  apply record_sell_insufficient_shares. reflexivity.
Defined.

(** * The request defaults *)

Lemma read_args_stated (a : BetArgs) : read_args (stated a) = a.
Proof. now destruct a. Qed.

(** With both prices left out they are the probability and its
    complement, whatever the probability. *)
Lemma default_prices (data : BetRequest) :
  req_yes_price data = None -> req_no_price data = None ->
  yes_price (read_args data) = current_prob (read_args data) /\
  no_price (read_args data) = 1 - current_prob (read_args data).
Proof.
  intros Hy Hn. unfold read_args. cbn [yes_price no_price current_prob].
  now rewrite Hy, Hn.
Qed.

(** C9: every field that a [/bet] body leaves out takes its fixed default
    before anything else happens: the action is ["evaluate"], the amount
    [1000], the probability [0.80], the YES price the probability and the
    NO price one minus the probability; a field that is present is taken
    as it is, and the request behaves as the one that states the five
    values.  With both prices left out and the probability left out or a
    number from 0 to 1, the two prices add up to exactly one in binary64. *)
Theorem bet_request_defaults (strategy : TradingStrategy) (data : BetRequest) :
  let a := read_args data in
  (req_action data = None -> arg_action a = "evaluate"%string) /\
  (req_amount_usd data = None -> amount_usd a = 1000) /\
  (req_current_prob data = None -> current_prob a = 0.80) /\
  (req_yes_price data = None -> yes_price a = current_prob a) /\
  (req_no_price data = None -> no_price a = 1 - current_prob a) /\
  (forall v, req_action data = Some v -> arg_action a = v) /\
  (forall v, req_amount_usd data = Some v -> amount_usd a = v) /\
  (forall v, req_current_prob data = Some v -> current_prob a = v) /\
  (forall v, req_yes_price data = Some v -> yes_price a = v) /\
  (forall v, req_no_price data = Some v -> no_price a = v) /\
  read_args (mkBetRequest None None None None None)
  = mkBetArgs "evaluate" 1000 0.80 0.80 (1 - 0.80) /\
  read_args (stated a) = a /\
  (forall w, execute_bet strategy data w = execute_bet strategy (stated a) w) /\
  (req_yes_price data = None -> req_no_price data = None ->
   (0 <=? current_prob a) = true -> (current_prob a <=? 1) = true ->
   yes_price a + no_price a = 1) /\
  (req_current_prob data = None -> req_yes_price data = None ->
   req_no_price data = None -> yes_price a + no_price a = 1).
Proof.
  intros a. subst a.
  split; [intros H; unfold read_args; now rewrite H|].
  split; [intros H; unfold read_args; now rewrite H|].
  split; [intros H; unfold read_args; now rewrite H|].
  split; [intros H; unfold read_args; now rewrite H|].
  split; [intros H; unfold read_args; now rewrite H|].
  split; [intros v H; unfold read_args; now rewrite H|].
  split; [intros v H; unfold read_args; now rewrite H|].
  split; [intros v H; unfold read_args; now rewrite H|].
  split; [intros v H; unfold read_args; now rewrite H|].
  split; [intros v H; unfold read_args; now rewrite H|].
  split; [reflexivity|].
  split; [apply read_args_stated|]. split; [|split].
  - intros w. unfold execute_bet. now rewrite read_args_stated.
  - intros Hy Hn H0 H1.
    destruct (default_prices data Hy Hn) as [-> ->].
    now apply Binary64.complement_sums_to_one.
  - intros Hp Hy Hn.
    destruct (default_prices data Hy Hn) as [-> ->].
    unfold read_args. cbn [current_prob]. rewrite Hp. reflexivity.
Qed.

(** The empty body, and a body that gives the probability 0.86 alone. *)
Lemma bet_request_defaults_witness :
  read_args (mkBetRequest None None None None None)
  = mkBetArgs "evaluate" 1000 0.80 0.80 (1 - 0.80) /\
  yes_price (read_args (mkBetRequest None None None None None))
  + no_price (read_args (mkBetRequest None None None None None)) = 1 /\
  yes_price (read_args (probability_only 0.86))
  + no_price (read_args (probability_only 0.86)) = 1.
Proof.
  destruct (bet_request_defaults demo_strategy
              (mkBetRequest None None None None None))
    as (_ & _ & _ & _ & _ & _ & _ & _ & _ & _ & Hempty & _ & _ & _ & Hsum).
  destruct (bet_request_defaults demo_strategy (probability_only 0.86))
    as (_ & _ & _ & _ & _ & _ & _ & _ & _ & _ & _ & _ & _ & Hunit & _).
  split; [exact Hempty|]. split; [now apply Hsum|].
  apply Hunit; reflexivity.
Defined.

(** Outside [0,1] the default prices need not add up to one.  A body that
    gives the probability 1e17 alone is answered 200; its prices are 1e17
    and 1 - 1e17, which is -1e17 in binary64, and their sum is 0.  For a
    probability that is not a number the sum is not a number. *)
Lemma default_prices_need_not_sum_to_one :
  status (fst (execute_bet demo_strategy (probability_only 1e17)
                 (initialize_agent empty))) = 200%Z /\
  yes_price (read_args (probability_only 1e17)) = 1e17 /\
  no_price (read_args (probability_only 1e17)) = -1e17 /\
  yes_price (read_args (probability_only 1e17))
  + no_price (read_args (probability_only 1e17)) = 0 /\
  (yes_price (read_args (probability_only 1e17))
   + no_price (read_args (probability_only 1e17)) =? 1) = false /\
  (1e17 <=? 1) = false /\
  (yes_price (read_args (probability_only nan))
   + no_price (read_args (probability_only nan)) =? 1) = false.
Proof. repeat split; reflexivity. Qed.

(** * Division by a zero price *)

(** C10: an [enter] whose YES price is zero (given, or defaulted from a
    zero probability) raises [ZeroDivisionError] at
    [shares = amount_usd / yes_price]; the handler answers 500 with
    [success = false], and the state is the one before the request: the
    position is unchanged and [open_position] was never invoked. *)
Theorem enter_at_zero_price_is_a_500 (strategy : TradingStrategy)
    (data : BetRequest) (w : World) :
  arg_action (read_args data) = "enter"%string ->
  (yes_price (read_args data) =? 0) = true ->
  execute_bet strategy data w
  = ({| status := 500; success := false;
        payload := Failure (Exception ZeroDivisionError) |}, w).
Proof.
  intros Ha Hz. unfold execute_bet, dispatch. rewrite Ha. cbn [String.eqb Ascii.eqb Bool.eqb].
  unfold bind, lift, truediv. now rewrite Hz.
Qed.

(** An enter of 1000 at a YES price of zero, on the empty ledger. *)
Lemma enter_at_zero_price_is_a_500_witness :
  execute_bet demo_strategy
    (mkBetRequest (Some "enter"%string) (Some 1000) (Some 0.80) (Some 0) None)
    (initialize_agent empty)
  = (rejected 500 (Exception ZeroDivisionError), initialize_agent empty).
Proof.
  now apply enter_at_zero_price_is_a_500.
Defined.

(** * Evaluation *)



(** * The hedged flag *)

(** C5: the [is_hedged] that [GET /position] and the [evaluate] action
    report is true exactly when both share counts are positive, in every
    state; it is false as soon as one of the two counts is zero. *)
Theorem is_hedged_iff_both_sides_held (w : World) :
  let p := position_manager w in
  let reported := status_is_hedged (get_position w) in
  (reported = true <-> (0 <? yes_shares p) = true /\ (0 <? no_shares p) = true) /\
  ((yes_shares p =? 0) = true \/ (no_shares p =? 0) = true -> reported = false) /\
  (forall (strategy : TradingStrategy) (data : BetRequest),
     arg_action (read_args data) = "evaluate"%string ->
     exists a why prob pnl,
       execute_bet strategy data w
       = (ok (Evaluation a why prob (yes_shares p) (no_shares p) reported pnl), w)).
Proof.
  intros p reported. subst reported. cbn [get_position status_is_hedged].
  fold p. split; [|split].
  - apply andb_true_iff.
  - intros [H|H]; apply eqb_zero_not_pos in H; rewrite H;
      [reflexivity | apply andb_false_r].
  - intros strategy data Ha. unfold execute_bet, dispatch.
    rewrite Ha. cbn [String.eqb Ascii.eqb Bool.eqb].
    unfold bind, read_position, ret. fold p.
    do 4 eexists. reflexivity.
Qed.

(** 1000 YES shares and none on the NO side: not hedged. *)
Lemma is_hedged_iff_both_sides_held_witness :
  status_is_hedged (get_position demo_world) = false.
Proof.
  apply (is_hedged_iff_both_sides_held demo_world).
  right. reflexivity.
Defined.

(** * The execution flag *)

Section DryRuns.

Context {A B : Type}.

Lemma dry_pure (f : World -> result A) : dry_run (fun w => (f w, w)).
Proof.
  intros w. exists []. cbn. now rewrite app_nil_r.
Qed.

Lemma dry_bind (m : M A) (k : A -> M B) :
  dry_run m -> (forall a, dry_run (k a)) -> dry_run (bind m k).
Proof.
  intros Hm Hk w. unfold bind.
  destruct (Hm w) as (made & Hcalls & Hoff).
  destruct (m w) as [[a|e] w1]; cbn in Hcalls.
  - destruct (Hk a w1) as (made' & Hcalls' & Hoff').
    exists (made ++ made'). split.
    + now rewrite Hcalls', Hcalls, app_assoc.
    + now apply Forall_app.
  - exists made. now split.
Qed.

End DryRuns.

Lemma dry_write (p : Position) : dry_run (write_position p).
Proof.
  intros w. exists []. cbn. now rewrite app_nil_r.
Qed.

Lemma dry_log (c : EngineCall) :
  execution_flag c = false -> dry_run (log_call c).
Proof.
  intros H w. exists [c]. cbn. split; [reflexivity|]. now constructor.
Qed.

Ltac dry_step :=
  first [ apply dry_bind; [|intros ?]
        | apply dry_write
        | apply dry_log; reflexivity
        | apply (dry_pure (fun _ => Ok _))
        | apply (dry_pure (fun _ => Raise _))
        | apply (dry_pure (fun w => Ok (position_manager w)))
        | apply (dry_pure (fun _ => _)) ].

Lemma dry_open_position (shares price : float) (side : Side)
    (entry : option float) :
  dry_run (open_position shares price side entry false).
Proof.
  unfold open_position. dry_step; [dry_step|].
  destruct (valid_entry shares price); repeat dry_step.
Qed.

Lemma dry_record_sell (side : Side) (shares price : float) :
  dry_run (record_sell side shares price).
Proof.
  unfold record_sell. dry_step; [dry_step|].
  destruct (_ <=? _); repeat dry_step.
Qed.

Lemma dry_book_profit_and_rebalance (strategy : TradingStrategy)
    (yes_price no_price : float) :
  dry_run (book_profit_and_rebalance strategy yes_price no_price false).
Proof.
  unfold book_profit_and_rebalance.
  dry_step; [dry_step|]. dry_step; [dry_step|].
  dry_step; [apply dry_record_sell|].
  dry_step; [apply dry_open_position|]. dry_step.
Qed.

Lemma dry_cut_loss_and_exit (yes_price no_price : float) :
  dry_run (cut_loss_and_exit yes_price no_price false).
Proof.
  unfold cut_loss_and_exit.
  dry_step; [dry_step|]. dry_step; [dry_step|].
  dry_step; [apply dry_record_sell|].
  dry_step; [apply dry_record_sell|].
  dry_step; [dry_step|]. dry_step.
Qed.

Lemma dry_dispatch (strategy : TradingStrategy) (a : BetArgs) :
  dry_run (dispatch strategy a).
Proof.
  unfold dispatch.
  destruct (arg_action a =? "enter")%string.
  { dry_step; [unfold lift; dry_step|].
    dry_step; [apply dry_open_position|]. repeat dry_step. }
  destruct (arg_action a =? "evaluate")%string.
  { repeat dry_step. }
  destruct (arg_action a =? "hedge")%string.
  { destruct (negb _); [dry_step|].
    dry_step; [apply dry_book_profit_and_rebalance|]. repeat dry_step. }
  destruct (arg_action a =? "exit")%string.
  { dry_step; [apply dry_cut_loss_and_exit|]. dry_step. }
  dry_step.
Qed.

Lemma logged_first {A : Type} (c : EngineCall) (k : M A) :
  dry_run k ->
  forall w : World,
    exists rest : list EngineCall,
      calls (snd (bind (log_call c) (fun _ => k) w)) = calls w ++ c :: rest.
Proof.
  intros Hk w. unfold bind, log_call.
  destruct (Hk {| position_manager := position_manager w;
                  calls := calls w ++ [c] |}) as (rest & Hcalls & _).
  exists rest. rewrite Hcalls. cbn [calls]. now rewrite <- app_assoc.
Qed.

Lemma book_profit_and_rebalance_logged (strategy : TradingStrategy)
    (yes_price no_price : float) (w : World) :
  exists rest : list EngineCall,
    calls (snd (book_profit_and_rebalance strategy yes_price no_price false w))
    = calls w ++ CallBookProfitAndRebalance yes_price no_price false :: rest.
Proof.
  unfold book_profit_and_rebalance. apply logged_first.
  dry_step; [dry_step|].
  dry_step; [apply dry_record_sell|].
  dry_step; [apply dry_open_position|]. dry_step.
Qed.

Lemma cut_loss_and_exit_logged (yes_price no_price : float) (w : World) :
  exists rest : list EngineCall,
    calls (snd (cut_loss_and_exit yes_price no_price false w))
    = calls w ++ CallCutLossAndExit yes_price no_price false :: rest.
Proof.
  unfold cut_loss_and_exit. apply logged_first.
  dry_step; [dry_step|].
  dry_step; [apply dry_record_sell|].
  dry_step; [apply dry_record_sell|].
  dry_step; [dry_step|]. dry_step.
Qed.

Lemma execute_bet_calls (strategy : TradingStrategy) (data : BetRequest)
    (w : World) :
  calls (snd (execute_bet strategy data w))
  = calls (snd (dispatch strategy (read_args data) w)).
Proof.
  unfold execute_bet.
  now destruct (dispatch strategy (read_args data) w) as [[r|e] w'].
Qed.

(** C8: whatever the request, every engine operation that [execute_bet]
    invokes is invoked with the execution flag [False]: [open_position] on
    enter, [book_profit_and_rebalance] (and what it invokes in turn) on
    hedge, [cut_loss_and_exit] on exit. *)
Theorem api_never_executes_trades (strategy : TradingStrategy)
    (data : BetRequest) (w : World) :
  let a := read_args data in
  exists made : list EngineCall,
    calls (snd (execute_bet strategy data w)) = calls w ++ made /\
    Forall (fun c => execution_flag c = false) made /\
    (arg_action a = "enter"%string ->
     (yes_price a =? 0) = false ->
     made = [CallOpenPosition (amount_usd a / yes_price a) (yes_price a) YES
               (Some (current_prob a)) false]) /\
    (arg_action a = "hedge"%string ->
     should_take_profit strategy (current_prob a) = true ->
     exists rest : list EngineCall,
       made = CallBookProfitAndRebalance (yes_price a) (no_price a) false :: rest) /\
    (arg_action a = "exit"%string ->
     exists rest : list EngineCall,
       made = CallCutLossAndExit (yes_price a) (no_price a) false :: rest).
Proof.
  intros a.
  destruct (dry_dispatch strategy a w) as (made & Hcalls & Hoff).
  exists made. rewrite execute_bet_calls. fold a.
  split; [exact Hcalls|]. split; [exact Hoff|].
  split; [|split].
  - intros Ha Hz. apply (app_inv_head (calls w)). rewrite <- Hcalls.
    unfold dispatch. rewrite Ha. cbn [String.eqb Ascii.eqb Bool.eqb].
    unfold bind at 1. unfold lift, truediv. rewrite Hz.
    unfold bind at 1.
    destruct (valid_entry (amount_usd a / yes_price a) (yes_price a)) eqn:Hv.
    + now rewrite open_position_valid.
    + now rewrite open_position_invalid.
  - intros Ha Htp.
    destruct (book_profit_and_rebalance_logged strategy (yes_price a)
                (no_price a) w) as (rest & Hlogged).
    exists rest. apply (app_inv_head (calls w)). rewrite <- Hcalls, <- Hlogged.
    unfold dispatch. rewrite Ha, Htp. cbn [String.eqb Ascii.eqb Bool.eqb negb].
    unfold bind at 1.
    now destruct (book_profit_and_rebalance strategy (yes_price a)
                    (no_price a) false w) as [[r|e] w'].
  - intros Ha.
    destruct (cut_loss_and_exit_logged (yes_price a) (no_price a) w)
      as (rest & Hlogged).
    exists rest. apply (app_inv_head (calls w)). rewrite <- Hcalls, <- Hlogged.
    unfold dispatch. rewrite Ha. cbn [String.eqb Ascii.eqb Bool.eqb].
    unfold bind at 1.
    now destruct (cut_loss_and_exit (yes_price a) (no_price a) false w)
      as [[r|e] w'].
Qed.

(** The hedge of the scenario through the API: the engine is asked to
    rebalance with the flag off, and whatever it invokes in turn has the
    flag off too. *)
Lemma api_never_executes_trades_witness :
  exists rest : list EngineCall,
    calls (snd (execute_bet demo_strategy
                  (mkBetRequest (Some "hedge"%string) None (Some 0.86) None None)
                  demo_world))
    = CallBookProfitAndRebalance 0.86 (1 - 0.86) false :: rest /\
    Forall (fun c => execution_flag c = false) rest.
Proof.
  destruct (api_never_executes_trades demo_strategy
              (mkBetRequest (Some "hedge"%string) None (Some 0.86) None None)
              demo_world) as (made & Hcalls & Hoff & _ & Hhedge & _).
  destruct (Hhedge eq_refl eq_refl) as (rest & Hmade).
  exists rest. rewrite Hcalls, Hmade. split; [reflexivity|].
  rewrite Hmade in Hoff. now apply Forall_inv_tail in Hoff.
Defined.

(** The record does tell the flags apart: the same exit invoked with the
    flag set is no dry run. *)
Lemma cut_loss_and_exit_flag_is_recorded :
  calls (snd (cut_loss_and_exit 0.15 0.85 true (initialize_agent empty)))
  = [CallCutLossAndExit 0.15 0.85 true].
Proof. reflexivity. Qed.

(** An enter at the default amount invokes [open_position] once, flag off. *)
Lemma enter_invokes_open_position :
  calls (snd (execute_bet demo_strategy
                (mkBetRequest (Some "enter"%string) None (Some 0.80) None None)
                (initialize_agent empty)))
  = [CallOpenPosition (1000 / 0.80) 0.80 YES (Some 0.80) false].
Proof. reflexivity. Qed.

(** * Capital invested *)

(** C6, as far as it holds: a sequence of valid [openPosition] calls never
    fails, and leaves [totalInvested] equal to the float sum of
    [shares * price] accumulated in call order on top of what was invested
    before.  An API [enter] on the state reached buys
    [amount_usd / yes_price] shares and adds the float product
    [(amount_usd / yes_price) * yes_price] to [totalInvested]. *)
Theorem total_invested_is_running_sum (entries : list EntryCall) (w : World) :
  Forall (fun e => valid_entry (entry_shares e) (entry_price e) = true) entries ->
  exists w' : World,
    open_positions entries w = (Ok tt, w') /\
    total_invested (position_manager w')
    = invested_after (total_invested (position_manager w)) entries /\
    forall (strategy : TradingStrategy) (data : BetRequest),
      let a := read_args data in
      let shares := amount_usd a / yes_price a in
      arg_action a = "enter"%string ->
      (yes_price a =? 0) = false ->
      valid_entry shares (yes_price a) = true ->
      exists w'' : World,
        execute_bet strategy data w'
        = (ok (Entry shares (yes_price a)
                 (yes_shares (position_manager w') + shares)
                 (total_invested (position_manager w') + shares * yes_price a)),
           w'') /\
        total_invested (position_manager w'')
        = total_invested (position_manager w') + shares * yes_price a.
Proof.
  intros Hvalid. revert w.
  induction Hvalid as [|e rest He _ IH]; intros w.
  - exists w. split; [reflexivity|]. split; [reflexivity|].
    intros strategy data a shares Ha Hz Hv.
    unfold execute_bet, dispatch. fold a. rewrite Ha.
    cbn [String.eqb Ascii.eqb Bool.eqb].
    unfold bind at 1. unfold lift, truediv. rewrite Hz. fold shares.
    unfold bind at 1. rewrite (open_position_valid _ _ _ _ _ _ Hv).
    eexists. split; reflexivity.
  - cbn [open_positions]. unfold bind at 1.
    rewrite (open_position_valid _ _ _ _ _ _ He).
    destruct (IH {| position_manager :=
                      buy (entry_side e) (entry_shares e) (entry_price e)
                        (entry_probability e) (position_manager w);
                    calls := calls w ++
                      [CallOpenPosition (entry_shares e) (entry_price e)
                         (entry_side e) (entry_probability e) (entry_execute e)] |})
      as (w' & Hrun & Hsum & Hapi).
    exists w'. split; [exact Hrun|]. split; [|exact Hapi].
    rewrite Hsum. cbn [position_manager invested_after fold_left].
    now rewrite total_invested_buy.
Qed.

(** Two valid entries on the empty ledger, 1000 YES at 0.80 and 500 NO at
    0.14, followed by an API enter of 100 at 0.5. *)
Lemma total_invested_is_running_sum_witness :
  exists w' w'' : World,
    open_positions
      [mkEntryCall 1000 0.80 YES (Some 0.80) false;
       mkEntryCall 500 0.14 NO None false]
      (initialize_agent empty) = (Ok tt, w') /\
    total_invested (position_manager w') = 0 + 1000 * 0.80 + 500 * 0.14 /\
    snd (execute_bet demo_strategy
           (mkBetRequest (Some "enter"%string) (Some 100) None (Some 0.5) None)
           w') = w'' /\
    total_invested (position_manager w'')
    = total_invested (position_manager w') + 100 / 0.5 * 0.5.
Proof.
  destruct (total_invested_is_running_sum
              [mkEntryCall 1000 0.80 YES (Some 0.80) false;
               mkEntryCall 500 0.14 NO None false]
              (initialize_agent empty)) as (w' & Hrun & Hsum & Hapi).
  - repeat constructor.
  - destruct (Hapi demo_strategy
                (mkBetRequest (Some "enter"%string) (Some 100) None (Some 0.5) None)
                eq_refl eq_refl eq_refl) as (w'' & Hbet & Hinvested).
    exists w', w''. split; [exact Hrun|]. split; [exact Hsum|].
    split; [now rewrite Hbet | exact Hinvested].
Defined.

(** C6 as stated fails: it has [totalInvested] grow by [shares * price]
    at every entry and by exactly [amount_usd] at an API [enter].  For an
    [enter] of 1000 at 0.83 the API passes [shares = 1000 / 0.83] and the
    price 0.83 to [open_position]; the product of the two is
    1000.0000000000001, and Python's [==] between it and 1000 is [False].
    On the empty ledger the request is answered 200 and leaves
    1000.0000000000001 invested. *)
Lemma enter_1000_at_083_overshoots :
  calls (snd (execute_bet demo_strategy
                (mkBetRequest (Some "enter"%string) (Some 1000) (Some 0.83)
                   (Some 0.83) None)
                (initialize_agent empty)))
  = [CallOpenPosition (1000 / 0.83) 0.83 YES (Some 0.83) false] /\
  1000 / 0.83 * 0.83 = 1000.0000000000001 /\
  (1000 / 0.83 * 0.83 =? 1000) = false /\
  valid_entry (1000 / 0.83) 0.83 = true /\
  fst (execute_bet demo_strategy
         (mkBetRequest (Some "enter"%string) (Some 1000) (Some 0.83) (Some 0.83) None)
         (initialize_agent empty))
  = ok (Entry (1000 / 0.83) 0.83 (1000 / 0.83) 1000.0000000000001) /\
  (total_invested
     (position_manager
        (snd (execute_bet demo_strategy
                (mkBetRequest (Some "enter"%string) (Some 1000) (Some 0.83)
                   (Some 0.83) None)
                (initialize_agent empty))))
   - total_invested empty =? 1000) = false.
Proof. repeat split; reflexivity. Qed.

(** * Hedging *)

(** C1, as far as it holds: on a position with YES shares, a
    [book_profit_and_rebalance] that succeeds sells
    [yesShares * hedgeSellPercent] YES shares, takes in
    [yesSold * yesPrice], buys [proceeds / noPrice] NO shares at [noPrice],
    and reports [lockedPnl = proceeds - yesSold * avgCostYes]; the average
    YES cost is untouched, and the API's hedge action relays the result. *)
Theorem book_profit_and_rebalance_accounts (strategy : TradingStrategy)
    (yes_price no_price : float) (flag : bool) (w w' : World) (r : HedgeResult) :
  (0 <? yes_shares (position_manager w)) = true ->
  book_profit_and_rebalance strategy yes_price no_price flag w = (Ok r, w') ->
  let p := position_manager w in
  let p' := position_manager w' in
  hedge_yes_sold r = yes_shares p * hedge_sell_percent strategy /\
  hedge_yes_price r = yes_price /\
  hedge_no_price r = no_price /\
  hedge_proceeds r = hedge_yes_sold r * yes_price /\
  hedge_no_bought r = hedge_proceeds r / no_price /\
  hedge_locked_pnl r = hedge_proceeds r - hedge_yes_sold r * avg_cost_yes p /\
  yes_shares p' = yes_shares p - hedge_yes_sold r /\
  no_shares p' = no_shares p + hedge_no_bought r /\
  total_withdrawn p' = total_withdrawn p + hedge_proceeds r /\
  total_invested p' = total_invested p + hedge_no_bought r * no_price /\
  avg_cost_yes p' = avg_cost_yes p /\
  (flag = false ->
   forall data : BetRequest,
     arg_action (read_args data) = "hedge"%string ->
     should_take_profit strategy (current_prob (read_args data)) = true ->
     Api.yes_price (read_args data) = yes_price ->
     Api.no_price (read_args data) = no_price ->
     execute_bet strategy data w
     = (ok (Hedge (hedge_locked_pnl r) (yes_shares p') (no_shares p') r), w')).
Proof.
  intros _ Hrun p p'.
  assert (Hcopy := Hrun).
  unfold book_profit_and_rebalance in Hrun.
  unfold bind at 1 in Hrun. cbn [log_call] in Hrun.
  unfold bind at 1 in Hrun. cbn [read_position position_manager] in Hrun.
  fold p in Hrun. unfold bind at 1 in Hrun.
  destruct (yes_shares p * hedge_sell_percent strategy <=? yes_shares p) eqn:Hheld.
  2:{ unfold record_sell, bind, read_position in Hrun.
      cbn [position_manager shares_of] in Hrun. fold p in Hrun.
      rewrite Hheld in Hrun. discriminate. }
  rewrite record_sell_enough in Hrun by exact Hheld.
  unfold bind at 1 in Hrun.
  destruct (valid_entry (yes_shares p * hedge_sell_percent strategy * yes_price / no_price)
              no_price) eqn:Hvalid.
  2:{ rewrite open_position_invalid in Hrun by exact Hvalid. discriminate. }
  rewrite open_position_valid in Hrun by exact Hvalid.
  unfold ret in Hrun. injection Hrun as <- <-.
  subst p'.
  do 11 (split; [reflexivity|]).
  intros -> data Ha Htp <- <-.
  unfold execute_bet, dispatch. rewrite Ha, Htp.
  cbn [String.eqb Ascii.eqb Bool.eqb negb].
  unfold bind at 1. rewrite Hcopy. reflexivity.
Qed.

(** The scenario of the design document: 1000 YES at 0.80, hedged at
    0.86 / 0.14 with half of the YES side sold. *)
Lemma book_profit_and_rebalance_accounts_witness :
  exists (r : HedgeResult) (w' : World),
    book_profit_and_rebalance demo_strategy 0.86 0.14 false demo_world = (Ok r, w') /\
    hedge_yes_sold r = 500 /\
    hedge_proceeds r = 430 /\
    hedge_no_bought r = 430 / 0.14 /\
    hedge_locked_pnl r = 30 /\
    yes_shares (position_manager w') = 500 /\
    no_shares (position_manager w') = 430 / 0.14.
Proof.
  destruct (book_profit_and_rebalance demo_strategy 0.86 0.14 false demo_world)
    as [[r|e] w'] eqn:Hrun; [|vm_compute in Hrun; discriminate].
  destruct (book_profit_and_rebalance_accounts demo_strategy 0.86 0.14 false
              demo_world w' r eq_refl Hrun)
    as (Hsold & _ & _ & Hproceeds & Hbought & Hlocked & Hyes & Hno & _).
  exists r, w'. split; [reflexivity|].
  rewrite Hyes, Hno, Hlocked, Hbought, Hproceeds, Hsold.
  repeat split; reflexivity.
Defined.

(** C1 as stated fails: it has the reported [lockedPnl] equal to
    [proceeds - yesSold * avgCostYes] and to
    [yesSold * (yesPrice - avgCostYes)] at once.  In the scenario of the
    design document the hedge succeeds with 500 YES shares sold for 430
    against an average cost of 0.80; the first expression is 30, the
    second is 29.999999999999972, and Python's [==] on the two is [False],
    so no reported value equals both, whichever of the two the engine
    computes. *)
Lemma locked_pnl_formulas_disagree :
  exists (r : HedgeResult) (w' : World),
    book_profit_and_rebalance demo_strategy 0.86 0.14 false demo_world = (Ok r, w') /\
    (0 <? yes_shares (position_manager demo_world)) = true /\
    avg_cost_yes (position_manager demo_world) = 0.80 /\
    hedge_yes_sold r = 500 /\
    hedge_proceeds r = 430 /\
    hedge_proceeds r - hedge_yes_sold r * avg_cost_yes (position_manager demo_world)
    = 30 /\
    hedge_yes_sold r * (0.86 - avg_cost_yes (position_manager demo_world))
    = 29.999999999999972 /\
    (hedge_proceeds r - hedge_yes_sold r * avg_cost_yes (position_manager demo_world)
     =? hedge_yes_sold r * (0.86 - avg_cost_yes (position_manager demo_world)))
    = false /\
    hedge_locked_pnl r = 30 /\
    (hedge_locked_pnl r
     =? hedge_yes_sold r * (0.86 - avg_cost_yes (position_manager demo_world)))
    = false.
Proof.
  do 2 eexists. split; [vm_compute; reflexivity|].
  repeat split; reflexivity.
Qed.

(** * Exiting *)

Lemma cut_loss_and_exit_sells_all (yes_price no_price : float) (flag : bool)
    (w : World) :
  let p := position_manager w in
  real (yes_shares p) -> real (no_shares p) ->
  cut_loss_and_exit yes_price no_price flag w
  = (Ok {| exit_yes_sold := yes_shares p;
           exit_no_sold := no_shares p;
           exit_total_proceeds :=
             yes_shares p * yes_price + no_shares p * no_price;
           exit_final_pnl :=
             total_withdrawn p + yes_shares p * yes_price
             + no_shares p * no_price - total_invested p |},
     {| position_manager :=
          sell NO (no_shares p) no_price (sell YES (yes_shares p) yes_price p);
        calls := calls w ++ [CallCutLossAndExit yes_price no_price flag] |}).
Proof.
  intros p Hyes Hno. unfold cut_loss_and_exit.
  unfold bind at 1. cbn [log_call].
  unfold bind at 1. cbn [read_position position_manager]. fold p.
  unfold bind at 1. rewrite record_sell_enough by now apply leb_refl.
  cbn [position_manager calls]. fold p.
  unfold bind at 1. rewrite record_sell_enough by now apply leb_refl.
  reflexivity.
Qed.

Lemma exit_of_empty_position (p : Position) (yes_price no_price : float) :
  yes_shares p = 0 -> no_shares p = 0 ->
  valid_price yes_price = true -> valid_price no_price = true ->
  total_withdrawn p <> neg_zero ->
  sell NO 0 no_price (sell YES 0 yes_price p) = p.
Proof.
  destruct p as [ys ns ti tw ay an ep]. cbn. intros -> -> Hy Hn Htw.
  rewrite (mul_zero_price _ Hy), (mul_zero_price _ Hn).
  rewrite !(add_zero_r tw Htw). reflexivity.
Qed.

Lemma exit_again (w : World) (yes_price no_price : float) (flag : bool) :
  let p := position_manager w in
  yes_shares p = 0 -> no_shares p = 0 ->
  valid_price yes_price = true -> valid_price no_price = true ->
  exists (r : ExitResult) (w' : World),
    cut_loss_and_exit yes_price no_price flag w = (Ok r, w') /\
    exit_yes_sold r = 0 /\
    exit_no_sold r = 0 /\
    exit_total_proceeds r = 0 /\
    yes_shares (position_manager w') = 0 /\
    no_shares (position_manager w') = 0 /\
    total_invested (position_manager w') = total_invested p /\
    total_withdrawn (position_manager w') = total_withdrawn p + 0 + 0 /\
    (total_withdrawn p <> neg_zero -> position_manager w' = p).
Proof.
  intros p Hy0 Hn0 Hy Hn.
  pose proof (cut_loss_and_exit_sells_all yes_price no_price flag w) as Hrun.
  fold p in Hrun. cbn zeta in Hrun. rewrite Hy0, Hn0 in Hrun.
  specialize (Hrun eq_refl eq_refl).
  rewrite (mul_zero_price _ Hy), (mul_zero_price _ Hn) in Hrun.
  eexists. eexists. split; [exact Hrun|].
  cbn [exit_yes_sold exit_no_sold exit_total_proceeds position_manager].
  do 3 (split; [reflexivity|]).
  split; [cbn [sell yes_shares]; now rewrite Hy0|].
  split; [cbn [sell no_shares]; now rewrite Hn0|].
  split; [reflexivity|].
  split.
  - cbn [sell total_withdrawn].
    now rewrite (mul_zero_price _ Hy), (mul_zero_price _ Hn).
  - intros Htw. now apply exit_of_empty_position.
Qed.

Lemma exit_again_at_any_price (w : World) (yes_price no_price : float)
    (flag : bool) :
  let p := position_manager w in
  yes_shares p = 0 -> no_shares p = 0 ->
  exists (r : ExitResult) (w' : World),
    cut_loss_and_exit yes_price no_price flag w = (Ok r, w') /\
    exit_yes_sold r = 0 /\
    exit_no_sold r = 0 /\
    exit_total_proceeds r = 0 * yes_price + 0 * no_price /\
    yes_shares (position_manager w') = 0 /\
    no_shares (position_manager w') = 0 /\
    total_invested (position_manager w') = total_invested p /\
    total_withdrawn (position_manager w')
    = total_withdrawn p + 0 * yes_price + 0 * no_price /\
    avg_cost_yes (position_manager w') = avg_cost_yes p /\
    avg_cost_no (position_manager w') = avg_cost_no p /\
    entry_prob (position_manager w') = entry_prob p.
Proof.
  intros p Hy0 Hn0.
  pose proof (cut_loss_and_exit_sells_all yes_price no_price flag w) as Hrun.
  fold p in Hrun. cbn zeta in Hrun. rewrite Hy0, Hn0 in Hrun.
  specialize (Hrun eq_refl eq_refl).
  eexists. eexists. split; [exact Hrun|].
  cbn [exit_yes_sold exit_no_sold exit_total_proceeds position_manager].
  do 3 (split; [reflexivity|]).
  split; [cbn [sell yes_shares]; now rewrite Hy0|].
  split; [cbn [sell no_shares]; now rewrite Hn0|].
  now repeat split.
Qed.

(** C2, as far as it holds: whatever finite share counts the position
    holds, [cutLossAndExit] completes and leaves zero shares on both sides;
    it reports the sum of the two sale proceeds, and a final PnL equal to
    [totalWithdrawn - totalInvested] as they stand after the sales.
    Called again on the emptied position it succeeds at any prices, sells
    nothing and leaves share counts, invested total, average costs and
    entry probability as they are; at finite prices the proceeds and the
    withdrawn total are the same numbers as before, and at prices in (0,1)
    the whole ledger is the same (the withdrawn total gains [+ 0 + 0],
    which changes no float but the negative zero).  The API's exit action
    relays the result. *)
Theorem cut_loss_and_exit_closes_position (yes_price no_price : float)
    (flag : bool) (w : World) :
  real (yes_shares (position_manager w)) ->
  real (no_shares (position_manager w)) ->
  let p := position_manager w in
  exists (r : ExitResult) (w' : World),
    let p' := position_manager w' in
    cut_loss_and_exit yes_price no_price flag w = (Ok r, w') /\
    yes_shares p' = 0 /\
    no_shares p' = 0 /\
    exit_yes_sold r = yes_shares p /\
    exit_no_sold r = no_shares p /\
    exit_total_proceeds r = yes_shares p * yes_price + no_shares p * no_price /\
    total_withdrawn p'
    = total_withdrawn p + yes_shares p * yes_price + no_shares p * no_price /\
    total_invested p' = total_invested p /\
    exit_final_pnl r = total_withdrawn p' - total_invested p' /\
    (forall (yes_price' no_price' : float) (flag' : bool),
       exists (r' : ExitResult) (w'' : World),
         let p'' := position_manager w'' in
         cut_loss_and_exit yes_price' no_price' flag' w' = (Ok r', w'') /\
         exit_yes_sold r' = 0 /\
         exit_no_sold r' = 0 /\
         yes_shares p'' = 0 /\
         no_shares p'' = 0 /\
         total_invested p'' = total_invested p' /\
         avg_cost_yes p'' = avg_cost_yes p' /\
         avg_cost_no p'' = avg_cost_no p' /\
         entry_prob p'' = entry_prob p' /\
         (real yes_price' -> real no_price' ->
          same_number (exit_total_proceeds r') 0 /\
          same_number (total_withdrawn p'') (total_withdrawn p')) /\
         (valid_price yes_price' = true -> valid_price no_price' = true ->
          exit_total_proceeds r' = 0 /\
          total_withdrawn p'' = total_withdrawn p' + 0 + 0 /\
          (total_withdrawn p' <> neg_zero -> p'' = p'))) /\
    (flag = false ->
     forall (strategy : TradingStrategy) (data : BetRequest),
       arg_action (read_args data) = "exit"%string ->
       Api.yes_price (read_args data) = yes_price ->
       Api.no_price (read_args data) = no_price ->
       execute_bet strategy data w
       = (ok (StopLoss (exit_final_pnl r) (exit_yes_sold r) (exit_no_sold r)
                (exit_total_proceeds r)), w')).
Proof.
  intros Hyes Hno p.
  pose proof (cut_loss_and_exit_sells_all yes_price no_price flag w Hyes Hno)
    as Hrun. fold p in Hrun.
  eexists. eexists. cbn zeta. split; [exact Hrun|].
  cbn [position_manager sell yes_shares no_shares total_withdrawn
       total_invested exit_yes_sold exit_no_sold exit_total_proceeds
       exit_final_pnl].
  split; [now apply sub_diag|]. split; [now apply sub_diag|].
  do 6 (split; [reflexivity|]). split.
  - intros yes_price' no_price' flag'.
    set (w' := {| position_manager :=
                    sell NO (no_shares p) no_price
                      (sell YES (yes_shares p) yes_price p);
                  calls := calls w ++ [CallCutLossAndExit yes_price no_price flag] |}).
    assert (Hy0 : yes_shares (position_manager w') = 0) by now apply sub_diag.
    assert (Hn0 : no_shares (position_manager w') = 0) by now apply sub_diag.
    destruct (exit_again_at_any_price w' yes_price' no_price' flag' Hy0 Hn0)
      as (r' & w'' & Hagain & Hys & Hns & Hpro & Hy' & Hn' & Hti & Htw & Hay & Han & Hep).
    exists r', w''. split; [exact Hagain|].
    do 8 (split; [assumption|]). split.
    + intros Hyreal Hnreal.
      destruct (mul_zero_real _ Hyreal) as (sy & Hzy).
      destruct (mul_zero_real _ Hnreal) as (sn & Hzn).
      split.
      * right. rewrite Hpro. now apply (sum_of_zeros _ _ sy sn).
      * rewrite Htw. now apply (add_two_zeros _ _ _ sy sn).
    + intros Hyvalid Hnvalid.
      rewrite (mul_zero_price _ Hyvalid), (mul_zero_price _ Hnvalid) in Hpro, Htw.
      split; [exact Hpro|]. split; [exact Htw|].
      intros Hzero.
      destruct (exit_again w' yes_price' no_price' flag' Hy0 Hn0 Hyvalid Hnvalid)
        as (r2 & w2 & Hrun2 & _ & _ & _ & _ & _ & _ & _ & Hsame).
      rewrite Hagain in Hrun2. injection Hrun2 as _ <-.
      now apply Hsame.
  - intros -> strategy data Ha <- <-.
    unfold execute_bet, dispatch. rewrite Ha.
    cbn [String.eqb Ascii.eqb Bool.eqb].
    unfold bind at 1. rewrite Hrun. reflexivity.
Qed.

(** The stop-loss scenario of the design document: 1000 YES at 0.80,
    exited at 0.15 / 0.85, then exited once more. *)
Lemma cut_loss_and_exit_closes_position_witness :
  exists (r : ExitResult) (w' : World),
    cut_loss_and_exit 0.15 0.85 false demo_world = (Ok r, w') /\
    yes_shares (position_manager w') = 0 /\
    no_shares (position_manager w') = 0 /\
    exit_yes_sold r = 1000 /\
    exit_total_proceeds r = 150 /\
    exit_final_pnl r = -650 /\
    exists (r' : ExitResult) (w'' : World),
      cut_loss_and_exit 0.15 0.85 false w' = (Ok r', w'') /\
      exit_total_proceeds r' = 0 /\
      position_manager w'' = position_manager w'.
Proof.
  destruct (cut_loss_and_exit_closes_position 0.15 0.85 false demo_world
              eq_refl eq_refl)
    as (r & w' & Hrun & Hy & Hn & Hys & _ & Hpro & Htw & Hti & Hpnl & Hagain & _).
  exists r, w'. split; [exact Hrun|].
  split; [exact Hy|]. split; [exact Hn|].
  split; [now rewrite Hys|]. split; [now rewrite Hpro|].
  split; [now rewrite Hpnl, Htw, Hti|].
  destruct (Hagain 0.15 0.85 false)
    as (r' & w'' & Hrun' & _ & _ & _ & _ & _ & _ & _ & _ & _ & Hvalid).
  destruct (Hvalid eq_refl eq_refl) as (Hpro' & _ & Hsame).
  exists r', w''. split; [exact Hrun'|]. split; [exact Hpro'|].
  apply Hsame. rewrite Htw. intros Hzero.
  apply (f_equal (fun x => x =? 0)) in Hzero. vm_compute in Hzero.
  discriminate.
Defined.

(** C2 as stated fails on a state the API reaches.  An [enter] of 1e308
    at a YES price of 1e-5 is answered 200 and leaves an infinite number
    of YES shares; the exit that follows is answered 200 too and leaves
    the YES count at NaN, not at zero; the exit after that raises
    [InsufficientShares].  And on the empty ledger an exit at an infinite
    price turns the withdrawn total into NaN. *)
Lemma exit_after_overflow_leaves_nan :
  status (fst (execute_bet demo_strategy overflowing_enter (initialize_agent empty)))
  = 200%Z /\
  yes_shares (position_manager
                (after_bets demo_strategy [overflowing_enter] (initialize_agent empty)))
  = infinity /\
  status (fst (execute_bet demo_strategy exit_at_half
                 (after_bets demo_strategy [overflowing_enter]
                    (initialize_agent empty))))
  = 200%Z /\
  yes_shares (position_manager
                (after_bets demo_strategy [overflowing_enter; exit_at_half]
                   (initialize_agent empty)))
  = nan /\
  (yes_shares (position_manager
                 (after_bets demo_strategy [overflowing_enter; exit_at_half]
                    (initialize_agent empty)))
   =? 0) = false /\
  fst (execute_bet demo_strategy exit_at_half
         (after_bets demo_strategy [overflowing_enter; exit_at_half]
            (initialize_agent empty)))
  = rejected 500 (Exception InsufficientShares) /\
  total_withdrawn
    (position_manager
       (snd (cut_loss_and_exit infinity 0.5 false (initialize_agent empty))))
  = nan.
Proof. repeat split; reflexivity. Qed.

(** * The branches of a bet, one by one *)

Lemma bind_returns {A B : Type} (m : M A) (k : A -> M B) (w w' : World) (b : B) :
  bind m k w = (Ok b, w') ->
  exists (a : A) (w1 : World), m w = (Ok a, w1) /\ k a w1 = (Ok b, w').
Proof.
  unfold bind. destruct (m w) as [[a|e] w1]; [|discriminate].
  intros H. now exists a, w1.
Qed.

Lemma action_cases (name : string) :
  name = "enter"%string \/ name = "evaluate"%string \/ name = "hedge"%string \/
  name = "exit"%string \/ Branch.known name = false.
Proof.
  unfold Branch.known.
  destruct (String.eqb_spec name "enter"); [now left|].
  destruct (String.eqb_spec name "evaluate"); [now right; left|].
  destruct (String.eqb_spec name "hedge"); [now right; right; left|].
  destruct (String.eqb_spec name "exit"); [now right; right; right; left|].
  now right; right; right; right.
Qed.

Lemma dispatch_enter (strategy : TradingStrategy) (a : BetArgs) :
  arg_action a = "enter"%string -> dispatch strategy a = Branch.enter a.
Proof. intros H. unfold dispatch. now rewrite H. Qed.

Lemma dispatch_evaluate (strategy : TradingStrategy) (a : BetArgs) :
  arg_action a = "evaluate"%string ->
  dispatch strategy a = Branch.evaluation strategy a.
Proof. intros H. unfold dispatch. now rewrite H. Qed.

Lemma dispatch_hedge (strategy : TradingStrategy) (a : BetArgs) :
  arg_action a = "hedge"%string -> dispatch strategy a = Branch.hedge strategy a.
Proof. intros H. unfold dispatch. now rewrite H. Qed.

Lemma dispatch_exit (strategy : TradingStrategy) (a : BetArgs) :
  arg_action a = "exit"%string -> dispatch strategy a = Branch.stop_loss a.
Proof. intros H. unfold dispatch. now rewrite H. Qed.

Lemma dispatch_unknown (strategy : TradingStrategy) (a : BetArgs) :
  Branch.known (arg_action a) = false -> dispatch strategy a = Branch.unknown a.
Proof.
  unfold Branch.known. rewrite !orb_false_iff. intros [[[H1 H2] H3] H4].
  unfold dispatch. now rewrite H1, H2, H3, H4.
Qed.

Lemma known_names (name : string) :
  Branch.known name = true <->
  name = "enter"%string \/ name = "evaluate"%string \/
  name = "hedge"%string \/ name = "exit"%string.
Proof.
  unfold Branch.known. rewrite !orb_true_iff, !String.eqb_eq. tauto.
Qed.

(** What each branch can return, and the state it returns it with. *)
Lemma enter_returns (a : BetArgs) (w w' : World) (r : Response) :
  Branch.enter a w = (Ok r, w') ->
  r = ok (Entry (amount_usd a / yes_price a) (yes_price a)
            (yes_shares (position_manager w'))
            (total_invested (position_manager w'))).
Proof.
  unfold Branch.enter. intros H.
  apply bind_returns in H as (shares & w1 & Hdiv & H).
  apply bind_returns in H as (u & w2 & _ & H).
  unfold lift, truediv in Hdiv.
  destruct (yes_price a =? 0); [discriminate|].
  injection Hdiv as <- <-.
  unfold bind, read_position, ret in H. now injection H as <- <-.
Qed.

Lemma evaluation_returns (strategy : TradingStrategy) (a : BetArgs) (w : World) :
  exists act why pnl,
    Branch.evaluation strategy a w
    = (Ok (ok (Evaluation act why (current_prob a)
                 (yes_shares (position_manager w)) (no_shares (position_manager w))
                 ((0 <? yes_shares (position_manager w))
                  && (0 <? no_shares (position_manager w))) pnl)), w).
Proof. do 3 eexists. reflexivity. Qed.

Lemma hedge_returns (strategy : TradingStrategy) (a : BetArgs) (w w' : World)
    (r : Response) :
  Branch.hedge strategy a w = (Ok r, w') ->
  (should_take_profit strategy (current_prob a) = false /\ w' = w /\
   r = rejected 400 (TakeProfitNotTriggered (current_prob a)
                       (take_profit_threshold strategy))) \/
  (should_take_profit strategy (current_prob a) = true /\
   exists result : HedgeResult,
     book_profit_and_rebalance strategy (yes_price a) (no_price a) false w
     = (Ok result, w') /\
     r = ok (Hedge (hedge_locked_pnl result) (yes_shares (position_manager w'))
               (no_shares (position_manager w')) result)).
Proof.
  unfold Branch.hedge.
  destruct (should_take_profit strategy (current_prob a)); cbn [negb]; intros H.
  - right. split; [reflexivity|].
    apply bind_returns in H as (result & w1 & Hrun & H).
    unfold bind, read_position, ret in H. injection H as <- <-.
    now exists result.
  - left. unfold ret in H. now injection H as <- <-.
Qed.

Lemma stop_loss_returns (a : BetArgs) (w w' : World) (r : Response) :
  Branch.stop_loss a w = (Ok r, w') ->
  exists result : ExitResult,
    cut_loss_and_exit (yes_price a) (no_price a) false w = (Ok result, w') /\
    r = ok (StopLoss (exit_final_pnl result) (exit_yes_sold result)
              (exit_no_sold result) (exit_total_proceeds result)).
Proof.
  unfold Branch.stop_loss. intros H.
  apply bind_returns in H as (result & w1 & Hrun & H).
  unfold ret in H. injection H as <- <-. now exists result.
Qed.

(** * Status codes *)

Lemma execute_bet_outcome (strategy : TradingStrategy) (data : BetRequest)
    (w : World) :
  let a := read_args data in
  let out := execute_bet strategy data w in
  let gate := should_take_profit strategy (current_prob a) in
  (status (fst out) = 200%Z /\ success (fst out) = true /\
   (forall e, payload (fst out) <> Failure e) /\
   Branch.known (arg_action a) = true /\
   (arg_action a = "hedge"%string -> gate = true)) \/
  (status (fst out) = 400%Z /\ success (fst out) = false /\ snd out = w /\
   ((arg_action a = "hedge"%string /\ gate = false /\
     payload (fst out)
     = Failure (TakeProfitNotTriggered (current_prob a)
                  (take_profit_threshold strategy))) \/
    (Branch.known (arg_action a) = false /\
     payload (fst out) = Failure (UnknownAction (arg_action a))))) \/
  (status (fst out) = 500%Z /\ success (fst out) = false /\
   Branch.known (arg_action a) = true /\
   (arg_action a = "hedge"%string -> gate = true) /\
   exists e, payload (fst out) = Failure (Exception e) /\
             fst (dispatch strategy a w) = Raise e).
Proof.
  intros a out gate. subst out gate. unfold execute_bet. fold a. clearbody a.
  destruct (action_cases (arg_action a)) as [Ha|[Ha|[Ha|[Ha|Ha]]]].
  - rewrite (dispatch_enter _ _ Ha).
    assert (Hk : Branch.known (arg_action a) = true) by now rewrite Ha.
    assert (Hh : arg_action a = "hedge"%string ->
                 should_take_profit strategy (current_prob a) = true)
      by (rewrite Ha; discriminate).
    destruct (Branch.enter a w) as [[r|e] w'] eqn:Hrun.
    + left. apply enter_returns in Hrun. subst r. cbn.
      repeat split; try assumption. discriminate.
    + right; right. cbn. repeat split; try assumption. now exists e.
  - rewrite (dispatch_evaluate _ _ Ha).
    destruct (evaluation_returns strategy a w) as (act & why & pnl & ->).
    left. cbn. split; [reflexivity|]. split; [reflexivity|].
    split; [discriminate|]. rewrite Ha. split; [reflexivity | discriminate].
  - rewrite (dispatch_hedge _ _ Ha).
    assert (Hk : Branch.known (arg_action a) = true) by now rewrite Ha.
    destruct (Branch.hedge strategy a w) as [[r|e] w'] eqn:Hrun.
    + apply hedge_returns in Hrun as [(Hg & -> & ->)|(Hg & result & _ & ->)].
      * right; left. cbn. do 3 (split; [reflexivity|]). left. now repeat split.
      * left. cbn. do 2 (split; [reflexivity|]). split; [discriminate|].
        split; [exact Hk | now intros _].
    + right; right.
      assert (Hg : should_take_profit strategy (current_prob a) = true).
      { unfold Branch.hedge in Hrun.
        destruct (should_take_profit strategy (current_prob a));
          [reflexivity | discriminate]. }
      cbn. do 2 (split; [reflexivity|]). split; [exact Hk|].
      split; [intros _; exact Hg | now exists e].
  - rewrite (dispatch_exit _ _ Ha).
    assert (Hk : Branch.known (arg_action a) = true) by now rewrite Ha.
    assert (Hh : arg_action a = "hedge"%string ->
                 should_take_profit strategy (current_prob a) = true)
      by (rewrite Ha; discriminate).
    destruct (Branch.stop_loss a w) as [[r|e] w'] eqn:Hrun.
    + apply stop_loss_returns in Hrun as (result & _ & ->).
      left. cbn. repeat split; try assumption. discriminate.
    + right; right. cbn. repeat split; try assumption. now exists e.
  - rewrite (dispatch_unknown _ _ Ha).
    right; left. cbn. repeat split. right. now split.
Qed.

(** X1: the HTTP status and the [success] flag of a [/bet] response always
    agree.  The answer is 200 with [success = true] and a result body, or
    400 with [success = false] and one of the two request errors (take
    profit not triggered, unknown action), or 500 with [success = false]
    and the exception that the branch raised; there is no other case. *)
Theorem status_agrees_with_success (strategy : TradingStrategy)
    (data : BetRequest) (w : World) :
  let a := read_args data in
  let r := fst (execute_bet strategy data w) in
  (status r = 200%Z /\ success r = true /\ forall e, payload r <> Failure e) \/
  (status r = 400%Z /\ success r = false /\
   (payload r = Failure (TakeProfitNotTriggered (current_prob a)
                           (take_profit_threshold strategy)) \/
    payload r = Failure (UnknownAction (arg_action a)))) \/
  (status r = 500%Z /\ success r = false /\
   exists e, payload r = Failure (Exception e) /\
             fst (dispatch strategy a w) = Raise e).
Proof.
  intros a r. subst r.
  destruct (execute_bet_outcome strategy data w)
    as [(H1 & H2 & H3 & _)|[(H1 & H2 & _ & H3)|(H1 & H2 & _ & _ & H3)]].
  - left. now repeat split.
  - right; left. split; [exact H1|]. split; [exact H2|].
    destruct H3 as [(_ & _ & H3)|(_ & H3)]; [now left | now right].
  - right; right. now repeat split.
Qed.

(** X2: a 400 is answered in exactly two situations, a [hedge] whose
    probability is below the take-profit threshold and an action that is
    none of the four known names; and a request answered with 400 has
    changed nothing, neither the position nor the record of engine
    calls. *)
Theorem client_errors_change_nothing (strategy : TradingStrategy)
    (data : BetRequest) (w : World) :
  let a := read_args data in
  let out := execute_bet strategy data w in
  (status (fst out) = 400%Z <->
   (arg_action a = "hedge"%string /\
    should_take_profit strategy (current_prob a) = false) \/
   Branch.known (arg_action a) = false) /\
  (status (fst out) = 400%Z -> snd out = w).
Proof.
  intros a out. subst out.
  pose proof (execute_bet_outcome strategy data w) as H.
  cbv zeta in H. fold a in H.
  destruct H
    as [(H1 & _ & _ & Hk & Hg)|[(H1 & _ & Hw & H3)|(H1 & _ & Hk & Hg & _)]].
  - split; [|rewrite H1; discriminate]. split; [rewrite H1; discriminate|].
    intros [[Ha Hgate]|Hu]; [|congruence].
    rewrite (Hg Ha) in Hgate. discriminate.
  - split; [|now intros _]. split; [|now intros _].
    intros _. destruct H3 as [(Ha & Hgate & _)|(Hu & _)]; [now left | now right].
  - split; [|rewrite H1; discriminate]. split; [rewrite H1; discriminate|].
    intros [[Ha Hgate]|Hu]; [|congruence].
    rewrite (Hg Ha) in Hgate. discriminate.
Qed.

(** A hedge below the threshold on the scenario's position, and a
    misspelt action. *)
Lemma client_errors_change_nothing_witness :
  snd (execute_bet demo_strategy
         (mkBetRequest (Some "hedge"%string) None (Some 0.80) None None)
         demo_world) = demo_world /\
  status (fst (execute_bet demo_strategy
                 (mkBetRequest (Some "Exit"%string) None None None None)
                 demo_world)) = 400%Z.
Proof.
  destruct (client_errors_change_nothing demo_strategy
              (mkBetRequest (Some "hedge"%string) None (Some 0.80) None None)
              demo_world) as (_ & Hsame).
  destruct (client_errors_change_nothing demo_strategy
              (mkBetRequest (Some "Exit"%string) None None None None)
              demo_world) as (Hwhen & _).
  split; [now apply Hsame|]. apply Hwhen. now right.
Defined.

(** * What a response reports *)

(** X3: the position figures in a successful response are those of the
    position as the request left it: [enter] reports the YES shares and
    the invested total after the purchase, [hedge] the two share counts
    after the rebalancing, [evaluate] the two share counts and an
    [is_hedged] computed from those very counts. *)
Theorem responses_report_the_stored_position (strategy : TradingStrategy)
    (data : BetRequest) (w : World) :
  let out := execute_bet strategy data w in
  let p' := position_manager (snd out) in
  match payload (fst out) with
  | Entry _ _ ys invested => ys = yes_shares p' /\ invested = total_invested p'
  | Evaluation _ _ _ ys ns hedged _ =>
      ys = yes_shares p' /\ ns = no_shares p' /\
      hedged = (0 <? ys) && (0 <? ns) /\ snd out = w
  | Hedge _ ys ns _ => ys = yes_shares p' /\ ns = no_shares p'
  | StopLoss _ _ _ _ => True
  | Failure _ => True
  end.
Proof.
  intros out p'. subst p' out. unfold execute_bet.
  destruct (action_cases (arg_action (read_args data))) as [Ha|[Ha|[Ha|[Ha|Ha]]]].
  - rewrite (dispatch_enter _ _ Ha).
    destruct (Branch.enter (read_args data) w) as [[r|e] w'] eqn:Hrun; [|exact I].
    apply enter_returns in Hrun. subst r. cbn. now split.
  - rewrite (dispatch_evaluate _ _ Ha).
    destruct (evaluation_returns strategy (read_args data) w)
      as (act & why & pnl & ->). cbn. now repeat split.
  - rewrite (dispatch_hedge _ _ Ha).
    destruct (Branch.hedge strategy (read_args data) w) as [[r|e] w'] eqn:Hrun;
      [|exact I].
    apply hedge_returns in Hrun as [(_ & _ & ->)|(_ & result & _ & ->)];
      [exact I|]. cbn. now split.
  - rewrite (dispatch_exit _ _ Ha).
    destruct (Branch.stop_loss (read_args data) w) as [[r|e] w'] eqn:Hrun;
      [|exact I].
    apply stop_loss_returns in Hrun as (result & _ & ->). exact I.
  - rewrite (dispatch_unknown _ _ Ha). exact I.
Qed.

(** * Fields that a branch does not read *)

(** X4: each action reads only some of the five request values.  An
    [enter] is decided by amount, probability and YES price: the NO price
    and the strategy play no part.  An [evaluate] ignores the amount.  A
    [hedge] that passes the take-profit gate is decided by the two prices
    alone, and so is an [exit], which has no gate at all: it goes ahead
    whatever the probability. *)
Theorem unused_fields_are_ignored (strategy strategy' : TradingStrategy)
    (d d' : BetRequest) (w : World) :
  let a := read_args d in
  let a' := read_args d' in
  (arg_action a = "enter"%string -> arg_action a' = "enter"%string ->
   amount_usd a = amount_usd a' -> current_prob a = current_prob a' ->
   yes_price a = yes_price a' ->
   execute_bet strategy d w = execute_bet strategy' d' w) /\
  (arg_action a = "evaluate"%string -> arg_action a' = "evaluate"%string ->
   current_prob a = current_prob a' ->
   yes_price a = yes_price a' -> no_price a = no_price a' ->
   execute_bet strategy d w = execute_bet strategy d' w) /\
  (arg_action a = "hedge"%string -> arg_action a' = "hedge"%string ->
   should_take_profit strategy (current_prob a) = true ->
   should_take_profit strategy (current_prob a') = true ->
   yes_price a = yes_price a' -> no_price a = no_price a' ->
   execute_bet strategy d w = execute_bet strategy d' w) /\
  (arg_action a = "exit"%string -> arg_action a' = "exit"%string ->
   yes_price a = yes_price a' -> no_price a = no_price a' ->
   execute_bet strategy d w = execute_bet strategy d' w).
Proof.
  intros a a'. unfold execute_bet. fold a a'. clearbody a a'.
  split; [|split; [|split]].
  - intros Ha Ha' Hamount Hprob Hyes.
    rewrite (dispatch_enter _ _ Ha), (dispatch_enter _ _ Ha').
    unfold Branch.enter. now rewrite Hamount, Hprob, Hyes.
  - intros Ha Ha' Hprob Hyes Hno.
    rewrite (dispatch_evaluate _ _ Ha), (dispatch_evaluate _ _ Ha').
    unfold Branch.evaluation. now rewrite Hprob, Hyes, Hno.
  - intros Ha Ha' Hgate Hgate' Hyes Hno.
    rewrite (dispatch_hedge _ _ Ha), (dispatch_hedge _ _ Ha').
    unfold Branch.hedge. now rewrite Hgate, Hgate', Hyes, Hno.
  - intros Ha Ha' Hyes Hno.
    rewrite (dispatch_exit _ _ Ha), (dispatch_exit _ _ Ha').
    unfold Branch.stop_loss. now rewrite Hyes, Hno.
Qed.

(** An exit at 0.15 / 0.85 asked once with probability 0.15 and once with
    probability 0.99 and another amount. *)
Lemma unused_fields_are_ignored_witness :
  execute_bet demo_strategy
    (mkBetRequest (Some "exit"%string) None (Some 0.15) (Some 0.15) (Some 0.85))
    demo_world
  = execute_bet demo_strategy
      (mkBetRequest (Some "exit"%string) (Some 5) (Some 0.99) (Some 0.15) (Some 0.85))
      demo_world.
Proof.
  now apply (unused_fields_are_ignored demo_strategy demo_strategy
               (mkBetRequest (Some "exit"%string) None (Some 0.15) (Some 0.15)
                  (Some 0.85))
               (mkBetRequest (Some "exit"%string) (Some 5) (Some 0.99) (Some 0.15)
                  (Some 0.85))
               demo_world).
Defined.

(** * The module-level singleton *)

Lemma initialize_agent_when_set (env : Process.Environment) (g : Process.Globals) :
  Process.global_position_manager g <> None ->
  Process.initialize_agent env g = g.
Proof.
  unfold Process.initialize_agent.
  now destruct (Process.global_position_manager g).
Qed.

Lemma initialize_agent_when_unset (env : Process.Environment)
    (g : Process.Globals) :
  Process.global_position_manager g = None ->
  Process.initialize_agent env g
  = {| Process.global_position_manager := Some (Process.position_file env);
       Process.global_strategy := Some (Process.configured env);
       Process.global_calls := Process.global_calls g |}.
Proof.
  unfold Process.initialize_agent. now intros ->.
Qed.


Lemma initialize_agent_consistent (env : Process.Environment)
    (g : Process.Globals) :
  Process.consistent g ->
  exists p s,
    Process.global_position_manager (Process.initialize_agent env g) = Some p /\
    Process.global_strategy (Process.initialize_agent env g) = Some s.
Proof.
  intros [[Hp Hs]|(p & s & Hp & Hs)].
  - rewrite (initialize_agent_when_unset env g Hp). cbn. now do 2 eexists.
  - rewrite initialize_agent_when_set by congruence. now exists p, s.
Qed.

(** What one request does to the globals, whatever they are. *)
Lemma serve_keeps_agent (env : Process.Environment) (req : Process.Request)
    (g : Process.Globals) :
  Process.global_position_manager g <> None ->
  Process.global_position_manager (snd (Process.serve env req g)) <> None /\
  Process.global_strategy (snd (Process.serve env req g))
  = Process.global_strategy g.
Proof.
  intros Hset. destruct req as [| |data|]; cbn [Process.serve].
  - now split.
  - unfold Process.get_position. rewrite (initialize_agent_when_set env g Hset).
    destruct (Process.global_position_manager g) as [p|] eqn:Hp; [|congruence].
    cbn [snd]. now rewrite Hp.
  - unfold Process.execute_bet. rewrite (initialize_agent_when_set env g Hset).
    destruct (Process.global_position_manager g) as [p|] eqn:Hp; [|congruence].
    destruct (Process.global_strategy g) as [s|] eqn:Hs.
    + cbn. split; [discriminate | congruence].
    + destruct (arg_action (read_args data) =? "enter")%string.
      * cbn. split; [discriminate | congruence].
      * destruct (Branch.known (arg_action (read_args data))).
        -- cbn [snd]. rewrite Hp, Hs. split; [discriminate | congruence].
        -- cbn. split; [discriminate | congruence].
  - unfold Process.reset_position. rewrite (initialize_agent_when_set env g Hset).
    destruct (Process.global_position_manager g) as [p|] eqn:Hp; [|congruence].
    cbn. split; [discriminate | congruence].
Qed.

Lemma serve_consistent (env : Process.Environment) (req : Process.Request)
    (g : Process.Globals) :
  Process.consistent g ->
  Process.consistent (snd (Process.serve env req g)) /\
  fst (Process.serve env req g) <> Process.NoneTypeError.
Proof.
  intros Hg. destruct req as [| |data|]; cbn [Process.serve].
  - split; [exact Hg | discriminate].
  - unfold Process.get_position.
    destruct (initialize_agent_consistent env g Hg) as (p & s & Hp & Hs).
    rewrite Hp. cbn. split; [right; now exists p, s | discriminate].
  - unfold Process.execute_bet.
    destruct (initialize_agent_consistent env g Hg) as (p & s & Hp & Hs).
    rewrite Hp, Hs. cbn [fst snd]. split; [|discriminate].
    right. do 2 eexists. unfold Process.store. cbn. split; [reflexivity | exact Hs].
  - unfold Process.reset_position.
    destruct (initialize_agent_consistent env g Hg) as (p & s & Hp & Hs).
    rewrite Hp. cbn [fst snd]. split; [|discriminate].
    right. do 2 eexists. unfold Process.store. cbn. split; [reflexivity | exact Hs].
Qed.

(** X5: started from the module as imported, and whatever requests arrive
    in whatever order, the two globals are always both unset or both set,
    and no route ever trips over a global that is still [None]. *)
Theorem globals_stay_consistent
    (traffic : list (Process.Environment * Process.Request)) :
  let out := Process.run traffic Process.fresh in
  Process.consistent (snd out) /\
  Forall (fun reply => reply <> Process.NoneTypeError) (fst out).
Proof.
  cbv zeta.
  assert (Hfresh : Process.consistent Process.fresh) by (left; now split).
  revert Hfresh. generalize Process.fresh as g.
  induction traffic as [|[env req] rest IH]; intros g Hg.
  - split; [exact Hg | constructor].
  - cbn [Process.run fst snd].
    destruct (serve_consistent env req g Hg) as (Hnext & Hreply).
    destruct (IH _ Hnext) as (Hlast & Hreplies).
    split; [exact Hlast | now constructor].
Qed.

(** X6: once the agent exists, no request replaces the strategy: after
    any traffic the take-profit and stop-loss thresholds and the hedge
    fraction are those the process held before, a [POST /reset]
    included, and the position manager is still there. *)
Theorem strategy_is_never_replaced
    (traffic : list (Process.Environment * Process.Request))
    (g : Process.Globals) :
  Process.global_position_manager g <> None ->
  Process.global_strategy (snd (Process.run traffic g)) = Process.global_strategy g /\
  Process.global_position_manager (snd (Process.run traffic g)) <> None.
Proof.
  revert g. induction traffic as [|[env req] rest IH]; intros g Hset.
  - now split.
  - cbn [Process.run snd].
    destruct (serve_keeps_agent env req g Hset) as (Hnext & Hsame).
    destruct (IH _ Hnext) as (Hstrategy & Hposition).
    split; [now rewrite Hstrategy | exact Hposition].
Qed.

(** The agent of the scenario, then a reset and a hedge served while the
    configuration says something else. *)
Lemma strategy_is_never_replaced_witness :
  Process.global_strategy
    (snd (Process.run
            [(changed_environment, Process.PostReset);
             (changed_environment,
              Process.PostBet
                (mkBetRequest (Some "hedge"%string) None (Some 0.86) None None))]
            (Process.initialize_agent demo_environment Process.fresh)))
  = Some demo_strategy.
Proof.
  apply (strategy_is_never_replaced
           [(changed_environment, Process.PostReset);
            (changed_environment,
             Process.PostBet
               (mkBetRequest (Some "hedge"%string) None (Some 0.86) None None))]
           (Process.initialize_agent demo_environment Process.fresh)).
  discriminate.
Defined.

Lemma serve_ignores_environment (env env' : Process.Environment)
    (req : Process.Request) (g : Process.Globals) :
  Process.global_position_manager g <> None ->
  Process.serve env req g = Process.serve env' req g.
Proof.
  intros Hset. destruct req as [| |data|]; cbn [Process.serve].
  - reflexivity.
  - unfold Process.get_position. now rewrite !initialize_agent_when_set.
  - unfold Process.execute_bet. now rewrite !initialize_agent_when_set.
  - unfold Process.reset_position. now rewrite !initialize_agent_when_set.
Qed.

(** X7: the position file and the configuration are read once.  When the
    agent exists, the replies and the final state of any traffic are the
    same whatever the file and the constants have become in the
    meantime. *)
Theorem environment_is_read_once
    (traffic traffic' : list (Process.Environment * Process.Request))
    (g : Process.Globals) :
  Process.global_position_manager g <> None ->
  map snd traffic = map snd traffic' ->
  Process.run traffic g = Process.run traffic' g.
Proof.
  revert traffic' g.
  induction traffic as [|[env req] rest IH]; intros [|[env' req'] rest'] g Hset Hsame;
    try discriminate; [reflexivity|].
  cbn [map snd] in Hsame. injection Hsame as -> Hrest.
  cbn [Process.run].
  rewrite (serve_ignores_environment env env' req' g Hset).
  destruct (serve_keeps_agent env' req' g Hset) as (Hnext & _).
  now rewrite (IH rest' _ Hnext Hrest).
Qed.

(** The same two requests served under the scenario's environment and
    under the changed one. *)
Lemma environment_is_read_once_witness :
  Process.run
    [(demo_environment, Process.GetPosition);
     (demo_environment,
      Process.PostBet (mkBetRequest (Some "hedge"%string) None (Some 0.86) None None))]
    (Process.initialize_agent demo_environment Process.fresh)
  = Process.run
      [(changed_environment, Process.GetPosition);
       (changed_environment,
        Process.PostBet (mkBetRequest (Some "hedge"%string) None (Some 0.86) None None))]
      (Process.initialize_agent demo_environment Process.fresh).
Proof.
  apply environment_is_read_once; [discriminate | reflexivity].
Defined.




(** * Requests that only read *)

Lemma store_world (p : Position) (g : Process.Globals) :
  Process.global_position_manager g = Some p ->
  Process.store (Process.world p g) g = g.
Proof.
  destruct g as [pm strategy made]. cbn. now intros ->.
Qed.

(** X9: once the agent exists, the reading requests leave the process
    exactly as it was, position, strategy and record of engine calls:
    [GET /position], a bet with action [evaluate], and any bet that is
    answered with a 400. *)
Theorem reading_requests_change_nothing (env : Process.Environment)
    (g : Process.Globals) (p : Position) (s : TradingStrategy) :
  Process.global_position_manager g = Some p ->
  Process.global_strategy g = Some s ->
  snd (Process.serve env Process.GetPosition g) = g /\
  (forall data : BetRequest,
     arg_action (read_args data) = "evaluate"%string ->
     snd (Process.serve env (Process.PostBet data) g) = g) /\
  (forall (data : BetRequest) (r : Response),
     fst (Process.serve env (Process.PostBet data) g) = Process.BetReply r ->
     status r = 400%Z ->
     snd (Process.serve env (Process.PostBet data) g) = g).
Proof.
  intros Hp Hs.
  assert (Hset : Process.global_position_manager g <> None) by congruence.
  cbn [Process.serve].
  unfold Process.get_position, Process.execute_bet.
  rewrite (initialize_agent_when_set env g Hset), Hp, Hs. cbn [fst snd].
  split; [reflexivity|]. split.
  - intros data Ha. unfold execute_bet.
    rewrite (dispatch_evaluate _ _ Ha).
    destruct (evaluation_returns s (read_args data) (Process.world p g))
      as (act & why & pnl & ->).
    cbn [snd]. now apply store_world.
  - intros data r Hr H400. injection Hr as <-.
    destruct (execute_bet_outcome s data (Process.world p g))
      as [(H1 & _)|[(_ & _ & Hw & _)|(H1 & _)]]; try congruence.
    rewrite Hw. now apply store_world.
Qed.

(** The agent of the scenario, asked for its position and for an
    evaluation. *)
Lemma reading_requests_change_nothing_witness :
  snd (Process.serve changed_environment Process.GetPosition
         (Process.initialize_agent demo_environment Process.fresh))
  = Process.initialize_agent demo_environment Process.fresh /\
  snd (Process.serve changed_environment
         (Process.PostBet (mkBetRequest None None (Some 0.86) None None))
         (Process.initialize_agent demo_environment Process.fresh))
  = Process.initialize_agent demo_environment Process.fresh.
Proof.
  destruct (reading_requests_change_nothing changed_environment
              (Process.initialize_agent demo_environment Process.fresh)
              (position_manager demo_world) demo_strategy eq_refl eq_refl)
    as (Hposition & Hevaluate & _).
  split; [exact Hposition | now apply Hevaluate].
Defined.

(** * No traffic executes a trade *)

Lemma dry_enter (a : BetArgs) : dry_run (Branch.enter a).
Proof.
  unfold Branch.enter.
  dry_step; [unfold lift; dry_step|].
  dry_step; [apply dry_open_position|]. repeat dry_step.
Qed.

Lemma handled_calls (branch : M Response) (w : World) :
  calls (snd (Branch.handled branch w)) = calls (snd (branch w)).
Proof.
  unfold Branch.handled. now destruct (branch w) as [[r|e] w'].
Qed.

Lemma initialize_agent_calls (env : Process.Environment) (g : Process.Globals) :
  Process.global_calls (Process.initialize_agent env g) = Process.global_calls g.
Proof.
  unfold Process.initialize_agent.
  now destruct (Process.global_position_manager g).
Qed.

Lemma serve_dry (env : Process.Environment) (req : Process.Request)
    (g : Process.Globals) :
  exists made : list EngineCall,
    Process.global_calls (snd (Process.serve env req g))
    = Process.global_calls g ++ made /\
    Forall (fun c => execution_flag c = false) made.
Proof.
  assert (Hnone : exists made : list EngineCall,
             Process.global_calls (Process.initialize_agent env g)
             = Process.global_calls g ++ made /\
             Forall (fun c => execution_flag c = false) made).
  { exists []. now rewrite initialize_agent_calls, app_nil_r. }
  destruct req as [| |data|]; cbn [Process.serve].
  - exists []. cbn. now rewrite app_nil_r.
  - unfold Process.get_position.
    now destruct (Process.global_position_manager (Process.initialize_agent env g)).
  - unfold Process.execute_bet.
    destruct (Process.global_position_manager (Process.initialize_agent env g))
      as [p|]; [|exact Hnone].
    destruct (Process.global_strategy (Process.initialize_agent env g)) as [s|].
    + cbn [snd Process.store Process.global_calls].
      rewrite execute_bet_calls.
      destruct (dry_dispatch s (read_args data)
                  (Process.world p (Process.initialize_agent env g)))
        as (made & Hcalls & Hoff).
      exists made. rewrite Hcalls. cbn [Process.world calls].
      now rewrite initialize_agent_calls.
    + destruct (arg_action (read_args data) =? "enter")%string.
      * cbn [snd Process.store Process.global_calls].
        rewrite handled_calls.
        destruct (dry_enter (read_args data)
                    (Process.world p (Process.initialize_agent env g)))
          as (made & Hcalls & Hoff).
        exists made. rewrite Hcalls. cbn [Process.world calls].
        now rewrite initialize_agent_calls.
      * destruct (Branch.known (arg_action (read_args data))); [exact Hnone|].
        cbn. exists []. now rewrite initialize_agent_calls, app_nil_r.
  - unfold Process.reset_position.
    destruct (Process.global_position_manager (Process.initialize_agent env g))
      as [p|]; [|exact Hnone].
    cbn. exists []. now rewrite initialize_agent_calls, app_nil_r.
Qed.

(** X10: whatever sequence of requests the process serves, from whatever
    state, every engine operation invoked along the way was invoked with
    the execution flag [False]; started from the module as imported, the
    whole record of engine calls has the flag off. *)
Theorem no_traffic_executes_trades
    (traffic : list (Process.Environment * Process.Request))
    (g : Process.Globals) :
  (exists made : list EngineCall,
     Process.global_calls (snd (Process.run traffic g))
     = Process.global_calls g ++ made /\
     Forall (fun c => execution_flag c = false) made) /\
  Forall (fun c => execution_flag c = false)
    (Process.global_calls (snd (Process.run traffic Process.fresh))).
Proof.
  assert (Hany : forall g0 : Process.Globals,
             exists made : list EngineCall,
               Process.global_calls (snd (Process.run traffic g0))
               = Process.global_calls g0 ++ made /\
               Forall (fun c => execution_flag c = false) made).
  { induction traffic as [|[env req] rest IH]; intros g0.
    - exists []. cbn. now rewrite app_nil_r.
    - cbn [Process.run snd].
      destruct (serve_dry env req g0) as (made & Hcalls & Hoff).
      destruct (IH (snd (Process.serve env req g0))) as (made' & Hcalls' & Hoff').
      exists (made ++ made'). split.
      + now rewrite Hcalls', Hcalls, app_assoc.
      + now apply Forall_app. }
  split; [apply Hany|].
  destruct (Hany Process.fresh) as (made & Hcalls & Hoff).
  now rewrite Hcalls.
Qed.

(** * The take-profit gate *)



